(** * SensorContext: the cascade telemetry engine of the dashboard

    Shallow embedding of [src/frontend/src/contexts/SensorContext.jsx]
    (the [SensorProvider] component): the cascade physics of
    [simulateFluidMetrics], the [smooth] filter, the history buffer of
    [updateHistory], the ingestion of backend health in
    [handleBackendUpdate] and the pause / resume toggle [runDiagnostics].

    Modelling conventions.
    - A JavaScript Number is an exact rational ([Q]); numeric results are
      compared with [==].  The rounding error of binary64 arithmetic, of the
      order of 1e-13 on the quantities of the cascade, is not modelled.
      [toFixed] rounds the value it is given half away from zero, as
      [Number.prototype.toFixed] does; since the code gives it the binary64
      result, it may publish the neighbouring multiple where the exact
      result is a decimal tie.  A property of published values that has
      to hold at such ties too is stated up to half a unit of the last
      digit ([publishedAt]).
    - Strings are strings of ASCII characters, and [toLowerCase] lowers A
      to Z; names with letters outside ASCII are not modelled.
    - Every driver of the health feed has a name; a driver object without
      one makes [hasDriver] throw, which the tick does not model (the scan
      over such drivers is [someDriver]).
    - A JavaScript object used as a dictionary is a [gmap string _]; a
      property that may be absent is an [option].
    - [Math.random()] is an input: five draws per node, in call order.
    - [new Date().toLocaleTimeString()] is an input of the tick.
    - Time is counted in milliseconds; the interval timer and the pending
      [setTimeout] callbacks are part of the state. *)

From Stdlib Require Import QArith Qround Qabs Qminmax Lqa ZArith Lia List Ascii String
  DecimalString.
From stdpp Require Import gmap strings.
Import ListNotations.

Local Open Scope string_scope.

(** ** JavaScript primitives used by the component *)

Module JS.

(** [Math.max(0, x)] *)
Definition max0 (x : Q) : Q := Qmax 0 x.

(** [x || dflt] on a possibly missing number: [undefined], [null] and [0]
    are falsy. *)
Definition truthy (v : option Q) : bool :=
  match v with
  | None => false
  | Some q => negb (Qeq_bool q 0)
  end.

Definition or_else (v : option Q) (dflt : Q) : Q :=
  match v with
  | Some q => if truthy v then q else dflt
  | None => dflt
  end.

(** [parseFloat(x.toFixed(digits))]: the nearest multiple of
    [10^-digits] of the value [x], ties resolved away from zero. *)
Definition pow10 (digits : nat) : positive := Pos.pow 10 (Pos.of_nat digits).

Definition toFixed (digits : nat) (x : Q) : Q :=
  let scale := match digits with O => 1%positive | _ => pow10 digits end in
  let n := Qfloor (Qabs x * (Zpos scale # 1) + (1 # 2)) in
  (if Qle_bool 0 x then n else (- n)%Z) # scale.

(** [c.toLowerCase()] on an ASCII character: A to Z are lowered, every
    other character is kept.  Characters outside ASCII are not modelled. *)
Definition lower_ascii (c : ascii) : ascii :=
  let n := nat_of_ascii c in
  if (65 <=? n)%nat && (n <=? 90)%nat then ascii_of_nat (n + 32) else c.

Fixpoint toLowerCase (s : string) : string :=
  match s with
  | EmptyString => EmptyString
  | String c s' => String (lower_ascii c) (toLowerCase s')
  end.

(** [s.includes(sub)] *)
Fixpoint includes (s sub : string) : bool :=
  String.prefix sub s ||
  match s with
  | EmptyString => false
  | String _ s' => includes s' sub
  end.

End JS.

(** ** Data model *)

Inductive Status := normal | warning | critical.

(** A degradation driver of the health feed; only its name is read, and it
    is taken to have one. *)
Record Driver := { name : string }.

(** One value of [data.system_health]; a property is [None] when its key is
    missing. *)
Record SegDetails := {
  health_score : option Q;
  drivers : option (list Driver)
}.

(** An element of the [sensors] array.  The metrics are properties that may
    be absent ([acoustic] is absent from [INITIAL_SENSORS]). *)
Record Sensor := {
  id : string;
  label : string;
  location : string;
  lat : Q;
  lng : Q;
  status : Status;
  pressure : option Q;
  flow : option Q;
  temp : option Q;
  vibration : option Q;
  acoustic : option Q;
  corrosion : option Q
}.

Record HistoryEntry := {
  timestamp : string;
  h_pressure : option Q;
  h_flow : option Q;
  h_temp : option Q
}.

(** The five [Math.random()] results consumed by one node, in call order. *)
Record Draws := { rP : Q; rF : Q; rV : Q; rA : Q; rT : Q }.

Definition mkSensor (i n l : string) (la ln p : Q) : Sensor :=
  {| id := i; label := n; location := l; lat := la; lng := ln;
     status := normal; pressure := Some p; flow := Some 350%Q;
     temp := Some 32%Q; vibration := Some 0.02%Q; acoustic := None;
     corrosion := Some 0.01%Q |}.

Definition INITIAL_SENSORS : list Sensor :=
  [ mkSensor "SENSOR_A" "Sensor A (Inlet)" "Segment A-B" 51.505 (-0.15) 75;
    mkSensor "SENSOR_B" "Sensor B (Mid)" "Segment B-C" 51.508 (-0.12) 74;
    mkSensor "SENSOR_C" "Sensor C (Crit)" "Segment C-D" 51.512 (-0.09) 73;
    mkSensor "SENSOR_D" "Sensor D (Down)" "Segment D-E" 51.509 (-0.06) 72;
    mkSensor "SENSOR_E" "Sensor E (Out)" "Segment D-E" 51.506 (-0.03) 71 ]%Q.

Definition INITIAL_HEALTH : gmap string Q :=
  <["A-B" := 100%Q]> (<["B-C" := 100%Q]> (<["C-D" := 100%Q]> (<["D-E" := 100%Q]> ∅))).

(** ** The cascade model of [simulateFluidMetrics] *)

Local Open Scope Q_scope.

Section Node.

(** [healthRef.current] and [detailsRef.current] *)
Variable currentHealth : gmap string Q.
Variable details : gmap string SegDetails.

Definition segmentOf (sensor_id : string) : string :=
  let segmentId := "A-B" in
  let segmentId := if String.eqb sensor_id "SENSOR_B" then "B-C" else segmentId in
  let segmentId := if String.eqb sensor_id "SENSOR_C" then "C-D" else segmentId in
  let segmentId :=
    if String.eqb sensor_id "SENSOR_D" || String.eqb sensor_id "SENSOR_E"
    then "D-E" else segmentId in
  segmentId.

Variable segmentId : string.

Definition health : Q := JS.or_else (currentHealth !! segmentId) 100.

Definition hasDriver (drv : string) : bool :=
  match details !! segmentId with
  | None => false
  | Some segDetails =>
      match drivers segDetails with
      | None => false
      | Some ds => existsb (fun d => JS.includes (JS.toLowerCase (name d)) drv) ds
      end
  end.

Definition isCritical : bool := negb (Qle_bool 75 health).
Definition isWarning : bool := negb (Qle_bool 90 health).

Definition damage : Q := (100 - health) / 100.

Definition isLeak : bool := hasDriver "leak" || hasDriver "failure".
Definition isBlockage : bool := hasDriver "clog" || hasDriver "buildup".
Definition isCorrosion : bool := hasDriver "corrosion".

Definition frictionLoss : Q := 0.8.

(** The value of [leakPressureDrop] when the stream is updated. *)
Definition leakPressureDrop : Q :=
  let drop := if isLeak || isCritical then damage * 25 else 0 in
  if isBlockage then 0 else drop.

Definition leakFlowLoss : Q :=
  if isLeak || isCritical then damage * 40 else 0.

(** The backpressure statement [streamPressure += damage * 5]. *)
Definition backpressure (streamPressure : Q) : Q :=
  if isBlockage then streamPressure + damage * 5 else streamPressure.

Definition nextPressure (streamPressure : Q) : Q :=
  JS.max0 (backpressure streamPressure - frictionLoss - leakPressureDrop).

Definition nextFlow (streamFlow : Q) : Q :=
  JS.max0 (streamFlow - leakFlowLoss).

Definition targetVib : Q :=
  let t := 0.02 in
  let t := if hasDriver "vibration" || isCritical then t + damage * 0.8 else t in
  let t := if isBlockage then t + 0.3 else t in
  t.

Definition targetCorrosion : Q :=
  let t := 0.01 in
  if isCorrosion || isCritical then t + damage * 0.6 else t.

Definition targetAcoustic : Q :=
  let t := 40 in
  let t := if isLeak then t + damage * 50 else t in
  let t := if isBlockage then t + damage * 20 else t in
  t.

Definition nodeStatus : Status :=
  let s := normal in
  let s := if isWarning then warning else s in
  let s := if isCritical then critical else s in
  s.

Definition chaos : Q := damage.
Definition noiseP (r : Draws) : Q := (rP r - 0.5) * (0.8 + chaos * 3).
Definition noiseF (r : Draws) : Q := (rF r - 0.5) * (2.0 + chaos * 8).
Definition noiseV (r : Draws) : Q := rV r * (0.005 + chaos * 0.05).
Definition noiseA (r : Draws) : Q := (rA r - 0.5) * (0.5 + chaos * 2).

End Node.

(** [smooth]: 90% old, 10% new; a missing previous value yields the target. *)
Definition smooth (prev : option Q) (target : Q) : Q :=
  match prev with
  | None => target
  | Some p => p * 0.9 + target * 0.1
  end.

(** The virtual stream carried from one sensor to the next. *)
Record Stream := { streamPressure : Q; streamFlow : Q }.

Definition SOURCE : Stream := {| streamPressure := 80.0; streamFlow := 355.0 |}.

Section Cascade.

Variable currentHealth : gmap string Q.
Variable details : gmap string SegDetails.

(** The stream after the losses of the segment of one sensor. *)
Definition applyLosses (segmentId : string) (s : Stream) : Stream :=
  {| streamPressure := nextPressure currentHealth details segmentId (streamPressure s);
     streamFlow := nextFlow currentHealth details segmentId (streamFlow s) |}.

(** The body of the [prevSensors.map] callback: the new reading of one
    sensor, and the stream handed to the next one. *)
Definition simulateSensor (s : Stream) (sensor : Sensor) (r : Draws) : Sensor * Stream :=
  let segmentId := segmentOf (id sensor) in
  let s' := applyLosses segmentId s in
  let dmg := damage currentHealth segmentId in
  ({| id := id sensor; label := label sensor; location := location sensor;
      lat := lat sensor; lng := lng sensor;
      pressure := Some (JS.toFixed 2 (JS.max0
        (smooth (pressure sensor) (streamPressure s' + noiseP currentHealth segmentId r))));
      flow := Some (JS.toFixed 1 (JS.max0
        (smooth (flow sensor) (streamFlow s' + noiseF currentHealth segmentId r))));
      temp := Some (JS.toFixed 1
        (smooth (temp sensor) (32 + dmg * 5 + (rT r - 0.5))));
      vibration := Some (JS.toFixed 3
        (smooth (vibration sensor)
           (targetVib currentHealth details segmentId + noiseV currentHealth segmentId r)));
      acoustic := Some (JS.toFixed 1
        (smooth (acoustic sensor)
           (targetAcoustic currentHealth details segmentId + noiseA currentHealth segmentId r)));
      corrosion := Some (JS.toFixed 4 (targetCorrosion currentHealth details segmentId));
      status := nodeStatus currentHealth segmentId |},
   s').

(** [prevSensors.map(...)] with the stream threaded through the callbacks;
    [rng index] holds the random draws of the sensor at [index]. *)
Fixpoint cascade (rng : nat -> Draws) (index : nat) (s : Stream)
    (prevSensors : list Sensor) : list Sensor * Stream :=
  match prevSensors with
  | [] => ([], s)
  | sensor :: rest =>
      let '(sensor', s') := simulateSensor s sensor (rng index) in
      let '(rest', s'') := cascade rng (S index) s' rest in
      (sensor' :: rest', s'')
  end.

End Cascade.

(** ** The history buffer *)

(** [updated.slice(-30)]: the last thirty elements. *)
Definition slice_last (n : nat) {A} (l : list A) : list A :=
  skipn (length l - n) l.

(** [updateHistory]; reading [currentSensors[0].pressure] of an empty array
    throws, which is [None]. *)
Definition updateHistory (currentSensors : list Sensor) (time : string)
    (prev : list HistoryEntry) : option (list HistoryEntry) :=
  match currentSensors with
  | [] => None
  | s0 :: _ =>
      let entry := {| timestamp := time; h_pressure := pressure s0;
                      h_flow := flow s0; h_temp := temp s0 |} in
      let updated := (prev ++ [entry])%list in
      Some (slice_last 30 updated)
  end.

(** ** The state of [SensorProvider] *)

(** The [useState] cells and the [useRef] cells of the component. *)
Record State := {
  sensors : list Sensor;
  segmentHealth : gmap string Q;
  systemHealth : option Q;          (* [None] is NaN *)
  systemHealthDetails : gmap string SegDetails;
  isLive : bool;
  history : list HistoryEntry;
  healthRef : gmap string Q;
  detailsRef : gmap string SegDetails;
  isLiveRef : bool
}.

Definition initial : State :=
  {| sensors := INITIAL_SENSORS;
     segmentHealth := INITIAL_HEALTH;
     systemHealth := Some 100;
     systemHealthDetails := ∅;
     isLive := true;
     history := [];
     healthRef := INITIAL_HEALTH;
     detailsRef := ∅;
     isLiveRef := true |}.

Definition setIsLive (b : bool) (st : State) : State :=
  {| sensors := sensors st; segmentHealth := segmentHealth st;
     systemHealth := systemHealth st;
     systemHealthDetails := systemHealthDetails st;
     isLive := b;
     history := history st; healthRef := healthRef st;
     detailsRef := detailsRef st; isLiveRef := isLiveRef st |}.

(** The effect [useEffect(() => { isLiveRef.current = isLive }, [isLive])],
    run when the component has rendered again. *)
Definition syncLiveRef (st : State) : State :=
  {| sensors := sensors st; segmentHealth := segmentHealth st;
     systemHealth := systemHealth st;
     systemHealthDetails := systemHealthDetails st;
     isLive := isLive st;
     history := history st; healthRef := healthRef st;
     detailsRef := detailsRef st; isLiveRef := isLive st |}.

(** [simulateFluidMetrics]: one cascade over the sensors, then
    [updateHistory] on the new readings. *)
Definition simulateFluidMetrics (rng : nat -> Draws) (time : string)
    (st : State) : option State :=
  let newSensors := fst (cascade (healthRef st) (detailsRef st) rng 0 SOURCE (sensors st)) in
  match updateHistory newSensors time (history st) with
  | None => None
  | Some h =>
      Some {| sensors := newSensors; segmentHealth := segmentHealth st;
              systemHealth := systemHealth st;
              systemHealthDetails := systemHealthDetails st;
              isLive := isLive st;
              history := h; healthRef := healthRef st;
              detailsRef := detailsRef st; isLiveRef := isLiveRef st |}
  end.

(** The [setInterval] callback. *)
Definition intervalCallback (rng : nat -> Draws) (time : string)
    (st : State) : option State :=
  if isLiveRef st then simulateFluidMetrics rng time st else Some st.

(** *** Backend health *)

(** A parsed websocket message; [data] itself may be [null]. *)
Record BackendData := { system_health : option (gmap string SegDetails) }.

Definition scoreOf (s : SegDetails) : Q := JS.or_else (health_score s) 100.

(** [scores.reduce((a, b) => a + b, 0) / scores.length]; [0 / 0] is NaN. *)
Definition average (scores : list Q) : option Q :=
  match scores with
  | [] => None
  | _ => Some (fold_left Qplus scores 0 / inject_Z (Z.of_nat (length scores)))
  end.

Definition handleBackendUpdate (data : option BackendData) (st : State) : State :=
  match data with
  | None => st
  | Some d =>
      match system_health d with
      | None => st
      | Some sh =>
          let scores := map (fun kv => scoreOf (snd kv)) (map_to_list sh) in
          let avgScore := average scores in
          let segHealth := scoreOf <$> sh in
          {| sensors := sensors st; segmentHealth := segHealth;
             systemHealth := avgScore;
             systemHealthDetails := sh;
             isLive := isLive st;
             history := history st; healthRef := segHealth;
             detailsRef := sh; isLiveRef := isLiveRef st |}
      end
  end.

(** ** Timers and the run-state toggle *)

(** A pending [setTimeout] callback of [runDiagnostics]: when it fires and
    the promise it resolves. *)
Record Timer := { due : N; promise : nat }.

(** The component together with the event loop around it: the time since
    mount in milliseconds, the pending timeouts, and the promises returned
    by [runDiagnostics] with the values they have been resolved with. *)
Record Runtime := {
  component : State;
  clock : N;
  timers : list Timer;
  promises : nat;
  settled : list (nat * string)
}.

Definition boot : Runtime :=
  {| component := initial; clock := 0; timers := []; promises := 0; settled := [] |}.

Definition onComponent (f : State -> State) (rt : Runtime) : Runtime :=
  {| component := f (component rt); clock := clock rt; timers := timers rt;
     promises := promises rt; settled := settled rt |}.

(** [runDiagnostics]: the new runtime and the promise handed to the caller. *)
Definition runDiagnostics (rt : Runtime) : Runtime * nat :=
  let p := promises rt in
  if isLive (component rt) then
    ({| component := setIsLive false (component rt); clock := clock rt;
        timers := timers rt; promises := S p;
        settled := (settled rt ++ [(p, "paused")])%list |}, p)
  else
    ({| component := component rt; clock := clock rt;
        timers := (timers rt ++ [{| due := clock rt + 6000; promise := p |}])%list;
        promises := S p; settled := settled rt |}, p).

(** The callback given to [setTimeout]: go live and resolve the promise. *)
Definition timeoutCallback (t : Timer) (rt : Runtime) : Runtime :=
  {| component := setIsLive true (component rt); clock := clock rt;
     timers := timers rt; promises := promises rt;
     settled := (settled rt ++ [(promise t, "started")])%list |}.

(** What the outside world supplies at each instant. *)
Record Env := {
  random : N -> nat -> Draws;
  localTime : N -> string
}.

(** One millisecond passes: the timeouts that are due run, the component
    renders and its effect runs, and every 1000 ms the interval fires. *)
Definition elapse1 (env : Env) (rt : Runtime) : option Runtime :=
  let now := (clock rt + 1)%N in
  let dueNow := List.filter (fun t => (due t <=? now)%N) (timers rt) in
  let later := List.filter (fun t => negb (due t <=? now)%N) (timers rt) in
  let rt1 := {| component := component rt; clock := now; timers := later;
                promises := promises rt; settled := settled rt |} in
  let rt2 := onComponent syncLiveRef (fold_left (fun r t => timeoutCallback t r) dueNow rt1) in
  if (now mod 1000 =? 0)%N then
    match intervalCallback (random env now) (localTime env now) (component rt2) with
    | None => None
    | Some st => Some (onComponent (fun _ => st) rt2)
    end
  else Some rt2.

Definition elapse (env : Env) (ms : N) (rt : Runtime) : option Runtime :=
  N.iter ms (fun o => match o with Some r => elapse1 env r | None => None end) (Some rt).

(** What the pages and the websocket do to the provider. *)
Inductive Action :=
| Elapse (ms : N)
| RunDiagnostics
| SetIsLive (b : bool)
| Message (data : option BackendData).

Definition perform (env : Env) (rt : Runtime) (a : Action) : option Runtime :=
  match a with
  | Elapse ms => elapse env ms rt
  | RunDiagnostics => Some (onComponent syncLiveRef (fst (runDiagnostics rt)))
  | SetIsLive b => Some (onComponent (fun st => syncLiveRef (setIsLive b st)) rt)
  | Message data => Some (onComponent (handleBackendUpdate data) rt)
  end.

Fixpoint run (env : Env) (rt : Runtime) (trace : list Action) : option Runtime :=
  match trace with
  | [] => Some rt
  | a :: rest =>
      match perform env rt a with
      | None => None
      | Some rt' => run env rt' rest
      end
  end.

(** ** Reference definitions and sample inputs used in the statements *)

(** The classification as the specification words it: two thresholds, the
    critical one first. *)
Definition spec_status (h : Q) : Status :=
  if Qlt_le_dec h 75 then critical
  else if Qlt_le_dec h 90 then warning
  else normal.

(** Draws that make every noise term vanish. *)
Definition calm : Draws := {| rP := 0.5; rF := 0.5; rV := 0; rA := 0.5; rT := 0.5 |}.

Definition calmEnv : Env := {| random := fun _ _ => calm; localTime := fun _ => "12:00:00" |}.

(** Segment C-D at health 40 with a clog driver. *)
Definition clogDetails : gmap string SegDetails :=
  <["C-D" := {| health_score := Some 40; drivers := Some [ {| name := "Clog" |} ] |}]> ∅.

Definition clogHealth : gmap string Q := scoreOf <$> clogDetails.

(** Segment B-C at health 60 with a leak driver. *)
Definition leakDetails : gmap string SegDetails :=
  <["B-C" := {| health_score := Some 60;
                drivers := Some [ {| name := "Leak Probability" |} ] |}]> ∅.

Definition leakHealth : gmap string Q := scoreOf <$> leakDetails.


(** The history entry made of a reading. *)
Definition entryOf (time : string) (s0 : Sensor) : HistoryEntry :=
  {| timestamp := time; h_pressure := pressure s0; h_flow := flow s0; h_temp := temp s0 |}.

(** A run of active ticks, with the log of the entries they made, oldest
    first: each is made of the first of the sensors just computed. *)
Fixpoint ticks (inputs : list ((nat -> Draws) * string)) (st : State)
    : option (State * list HistoryEntry) :=
  match inputs with
  | [] => Some (st, [])
  | (rng, time) :: rest =>
      match simulateFluidMetrics rng time st with
      | None => None
      | Some st' =>
          match head (sensors st'), ticks rest st' with
          | Some s0, Some (st'', entries) => Some (st'', entryOf time s0 :: entries)
          | _, _ => None
          end
      end
  end.

(** What holds of the provider from its first render on: the sensors are
    those of the topology, in order, and the history fits its window. *)
Definition wellFormed (st : State) : Prop :=
  map id (sensors st) = map id INITIAL_SENSORS /\
  (length (history st) <= 30)%nat.

(** The runtime [ms] milliseconds later when nothing has run. *)
Definition advance (ms : N) (rt : Runtime) : Runtime :=
  {| component := component rt; clock := (clock rt + ms)%N; timers := timers rt;
     promises := promises rt; settled := settled rt |}.

(** The provider right after a first call of [runDiagnostics], which pauses
    it. *)
Definition pausedBoot : Runtime := onComponent syncLiveRef (fst (runDiagnostics boot)).

(** What a page sees of the runtime: the live flag, the time, the number of
    history entries and the promises resolved so far. *)
Definition observe (rt : Runtime) : bool * N * nat * list (nat * string) :=
  (isLive (component rt), clock rt, length (history (component rt)), settled rt).

(** Segment B-C with a score above the scale. *)
Definition overHealth : gmap string Q := <["B-C" := 150]> ∅.









(** ** Readers of the provider *)

(** What [getSensorReading] returns: the sensor found, or an object that
    holds five zero metrics and nothing else. *)
Inductive Reading := SensorReading (s : Sensor) | ZeroReading.

Definition getSensorReading (sensorList : list Sensor) (sensorId : string) : Reading :=
  match List.find (fun s => String.eqb (id s) sensorId) sensorList with
  | Some sensor => SensorReading sensor
  | None => ZeroReading
  end.

(** The properties of a reading that the pages read. *)
Definition readingPressure (r : Reading) : option Q :=
  match r with SensorReading s => pressure s | ZeroReading => Some 0 end.

Definition readingFlow (r : Reading) : option Q :=
  match r with SensorReading s => flow s | ZeroReading => Some 0 end.

Definition readingTemp (r : Reading) : option Q :=
  match r with SensorReading s => temp s | ZeroReading => Some 0 end.

Definition readingVibration (r : Reading) : option Q :=
  match r with SensorReading s => vibration s | ZeroReading => Some 0 end.

Definition readingCorrosion (r : Reading) : option Q :=
  match r with SensorReading s => corrosion s | ZeroReading => Some 0 end.

Definition readingAcoustic (r : Reading) : option Q :=
  match r with SensorReading s => acoustic s | ZeroReading => None end.

(** The resolution of the promise awaited by a timeout. *)
Definition started (t : Timer) : nat * string := (promise t, "started").

(** The bookkeeping of [runDiagnostics]: the ref agrees with the flag; every
    pending timeout falls due within the next 6000 ms; the promises handed
    out so far are, each exactly once, either resolved or awaited by a
    pending timeout; and a promise is resolved with "paused" or "started". *)
Definition accounted (rt : Runtime) : Prop :=
  isLiveRef (component rt) = isLive (component rt) /\
  Forall (fun t => (clock rt < due t <= clock rt + 6000)%N) (timers rt) /\
  map fst (settled rt) ++ map promise (timers rt) ≡ₚ seq 0 (promises rt) /\
  Forall (fun pv => snd pv = "paused" \/ snd pv = "started") (settled rt).

(** ** The pages that read the provider *)

(** [HealthMonitor.jsx], the "overall" report:
    [allSegments.reduce((sum, s) => sum + s.health_score, 0)].  A missing
    score makes the sum NaN ([None]). *)
Definition addScore (sum : option Q) (s : SegDetails) : option Q :=
  match sum, health_score s with
  | Some a, Some q => Some (a + q)
  | _, _ => None
  end.

(** [avgScore] of the "overall" report: the plain mean of the scores, or
    100 when there are no details. *)
Definition overallScore (systemHealthDetails0 : gmap string SegDetails) : option Q :=
  let allSegments := map snd (map_to_list systemHealthDetails0) in
  match allSegments with
  | [] => Some 100
  | _ => match fold_left addScore allSegments (Some 0) with
         | Some total => Some (total / inject_Z (Z.of_nat (length allSegments)))
         | None => None
         end
  end.

(** [s.split(sep)] for a separator of one character. *)
Fixpoint splitOn (sep : ascii) (s : string) : list string :=
  match s with
  | EmptyString => [EmptyString]
  | String c s' =>
      if Ascii.eqb c sep then EmptyString :: splitOn sep s'
      else match splitOn sep s' with
           | [] => [String c EmptyString]
           | part :: parts => String c part :: parts
           end
  end.

(** [`${sensorId.split('_')[1]}`]: a missing second part prints as
    "undefined". *)
Definition idSuffix (sensorId : string) : string :=
  match nth_error (splitOn "_" sensorId) 1 with
  | Some part => part
  | None => "undefined"
  end.

(** The key the pages build for the segment between two neighbours. *)
Definition segKey (uId downId : string) : string :=
  idSuffix uId ++ "-" ++ idSuffix downId.

(** [PipelineSchematic.jsx], [getSegmentColor]. *)
Definition getSegmentColor (segmentHealth0 : gmap string Q) (uId downId : string) : string :=
  let score := JS.or_else (segmentHealth0 !! segKey uId downId) 100 in
  if negb (Qle_bool 90 score) then "#f59e0b"
  else if negb (Qle_bool 75 score) then "#ef4444"
  else "#3b82f6".

(** [SystemTopology.jsx], the [statusColor] of the connector after a
    sensor. *)
Definition connectorStatusColor (segmentHealth0 : gmap string Q)
    (sensor nextSensor : Sensor) : string :=
  let health0 := JS.or_else (segmentHealth0 !! segKey (id sensor) (id nextSensor)) 100 in
  let statusColor := "text-blue-500" in
  let statusColor := if negb (Qle_bool 90 health0) then "text-amber-500" else statusColor in
  let statusColor := if negb (Qle_bool 75 health0) then "text-red-500" else statusColor in
  statusColor.

(** [FieldPanel.jsx], the dashboard: the number of critical sensors and the
    status line. *)
Definition criticalSensors (sensorList : list Sensor) : nat :=
  length (List.filter (fun s => match status s with critical => true | _ => false end)
            sensorList).

Definition systemStatus (isLive0 : bool) (sensorList : list Sensor)
    (systemHealth0 : option Q) : string :=
  let status0 := "System Online" in
  if negb isLive0 then "Diagnostics Paused"
  else if (0 <? criticalSensors sensorList)%nat then "Critical Alert"
  else if match systemHealth0 with
          | Some h => negb (Qle_bool 90 h)
          | None => false
          end then "Maintenance Due"
  else status0.

(** The health snapshot shown is the one simulated. *)
Definition mirrored (st : State) : Prop :=
  segmentHealth st = healthRef st /\ systemHealthDetails st = detailsRef st.

(** The colour class that goes with a status. *)
Definition statusColorOf (s : Status) : string :=
  match s with
  | critical => "text-red-500"
  | warning => "text-amber-500"
  | normal => "text-blue-500"
  end.

(** ** The investigation report generator *)

(** One point of the trend chart of an investigation report. *)
Record TrendPoint := { day : string; t_pressure : Q; t_corrosion : Q }.

(** [`Day ${i + 1}`] *)
Definition dayLabel (i : nat) : string :=
  "Day " ++ NilEmpty.string_of_uint (Nat.to_uint (i + 1)).

(** [Array.from({ length: 30 }, (_, i) => ...)]; [draws i] holds the two
    [Math.random()] results of day [i], pressure first. *)
Definition trends (draws : nat -> Q * Q) : list TrendPoint :=
  map (fun i =>
         {| day := dayLabel i;
            t_pressure := 85 - inject_Z (Z.of_nat i) * 0.5 - fst (draws i) * 2;
            t_corrosion := 0.04 + inject_Z (Z.of_nat i) * 0.004 + snd (draws i) * 0.001 |})
      (seq 0 30).

(** The part of the report that is computed; its tables of fixed text are
    not modelled. *)
Record InvestigationReport := {
  report_id : string;
  alertLevel : string;
  confidence : Q;
  charts_trends : list TrendPoint
}.

(** [getInvestigationData]: a report for segment C-D, [null] for any other. *)
Definition getInvestigationData (segmentId : string) (draws : nat -> Q * Q)
    : option InvestigationReport :=
  if negb (String.eqb segmentId "C-D") then None
  else Some {| report_id := "RPT-2026-X89"; alertLevel := "CRITICAL";
               confidence := 98.4; charts_trends := trends draws |}.

(** The fields of a sensor that say which sensor it is and where. *)
Definition sensorIdentity (s : Sensor) : string * string * string * Q * Q :=
  (id s, label s, location s, lat s, lng s).

(** A sensor with all six metrics defined. *)
Definition allMetricsPresent (s : Sensor) : Prop :=
  is_Some (pressure s) /\ is_Some (flow s) /\ is_Some (temp s) /\
  is_Some (vibration s) /\ is_Some (acoustic s) /\ is_Some (corrosion s).

(** ** The HTTP client of [lib/api.js] and the auth context

    The server is an input: what it answers to the n-th request, and what
    the refresh endpoint answers to the n-th refresh.  The browser is the
    local storage, the address the window was sent to, and the log of what
    was sent.  A response body is an object whose properties may be absent.
    The toast shown on a failure is not modelled.  The [_retry] mark put on
    a request is taken to survive the re-submission through [api]. *)

Module Http.

Record Payload := {
  access_token : option string;
  refresh_token : option string;
  role : option string;
  username : option string;
  email : option string
}.

Record Request := {
  method : string;
  url : string;
  body : list string;
  authorization : option string;
  _retry : bool
}.

(** A response, or an error with [error.response?.status]. *)
Inductive Reply := Success (data : Payload) | Failure (status : option nat).

Record Backend := {
  respond : nat -> Request -> Reply;
  refreshEndpoint : nat -> string -> option Payload
}.

Record World := {
  storage : gmap string string;
  href : option string;
  sent : list Request;
  refreshCalls : list string
}.

Definition getItem (key : string) (w : World) : option string := storage w !! key.

(** A stored string read in a condition: the empty string is falsy. *)
Definition present (v : option string) : option string :=
  match v with
  | Some s => if String.eqb s "" then None else Some s
  | None => None
  end.

(** [String(value)], also what a template literal prints: a missing value
    reads "undefined". *)
Definition str (value : option string) : string :=
  match value with Some s => s | None => "undefined" end.

(** [localStorage.setItem(key, value)] stores [String(value)]. *)
Definition setItem (key : string) (value : option string) (w : World) : World :=
  {| storage := <[key := str value]> (storage w);
     href := href w; sent := sent w; refreshCalls := refreshCalls w |}.

Definition removeItem (key : string) (w : World) : World :=
  {| storage := delete key (storage w);
     href := href w; sent := sent w; refreshCalls := refreshCalls w |}.

Definition redirect (target : string) (w : World) : World :=
  {| storage := storage w; href := Some target; sent := sent w;
     refreshCalls := refreshCalls w |}.

Definition withAuthorization (value : string) (retry : bool) (config : Request) : Request :=
  {| method := method config; url := url config; body := body config;
     authorization := Some value; _retry := retry |}.

(** The request interceptor. *)
Definition onRequest (w : World) (config : Request) : Request :=
  match present (getItem "access_token" w) with
  | Some token => withAuthorization ("Bearer " ++ token) (_retry config) config
  | None => config
  end.

(** The request goes out through the request interceptor. *)
Definition dispatch (b : Backend) (w : World) (config : Request) : World * Reply :=
  let config' := onRequest w config in
  ({| storage := storage w; href := href w; sent := (sent w ++ [config'])%list;
      refreshCalls := refreshCalls w |},
   respond b (length (sent w)) config').

Definition is401 (status : option nat) : bool :=
  match status with Some 401%nat => true | _ => false end.

(** One pass of [api(config)]: the request, then the response interceptor,
    which may submit the request again through [again], that is [api]. *)
Definition attempt (again : World -> Request -> option (World * Reply))
    (b : Backend) (w : World) (config : Request) : option (World * Reply) :=
  let '(w1, reply) := dispatch b w config in
  match reply with
  | Success data => Some (w1, Success data)
  | Failure status =>
      if is401 status && negb (_retry config) then
        match present (getItem "refresh_token" w1) with
        | Some refreshToken =>
            let w2 := {| storage := storage w1; href := href w1; sent := sent w1;
                         refreshCalls := (refreshCalls w1 ++ [refreshToken])%list |} in
            match refreshEndpoint b (length (refreshCalls w1)) refreshToken with
            | Some data =>
                let w3 := setItem "refresh_token" (refresh_token data)
                            (setItem "access_token" (access_token data) w2) in
                again w3 (withAuthorization ("Bearer " ++ str (access_token data)) true config)
            | None =>
                Some (redirect "/login"
                        (removeItem "refresh_token" (removeItem "access_token" w2)),
                      Failure status)
            end
        | None => Some (redirect "/login" w1, Failure status)
        end
      else Some (w1, Failure status)
  end.

(** [api], with [fuel] bounding the submissions of one call. *)
Fixpoint apiFuel (fuel : nat) (b : Backend) (w : World) (config : Request)
    : option (World * Reply) :=
  match fuel with
  | O => None
  | S fuel' => attempt (apiFuel fuel' b) b w config
  end.

Definition api (b : Backend) (w : World) (config : Request) : World * Reply :=
  match apiFuel 2 b w config with
  | Some result => result
  | None => (w, Failure None)
  end.

Definition get (path : string) : Request :=
  {| method := "get"; url := path; body := []; authorization := None; _retry := false |}.

Definition post (path : string) (fields : list string) : Request :=
  {| method := "post"; url := path; body := fields; authorization := None; _retry := false |}.

End Http.

Module AuthContext.

Import Http.

Record AuthState := { user : option Payload; loading : bool }.

Definition start : AuthState := {| user := None; loading := true |}.

(** What an [async] function hands back. *)
Inductive Outcome := Resolved (data : Payload) | Rejected.

Definition setUser (u : option Payload) (st : AuthState) : AuthState :=
  {| user := u; loading := loading st |}.

Definition setLoading (l : bool) (st : AuthState) : AuthState :=
  {| user := user st; loading := l |}.

(** The effect run at mount. *)
Definition mount (b : Backend) (w : World) (st : AuthState) : World * AuthState :=
  match present (getItem "access_token" w) with
  | Some token =>
      let '(w1, reply) := api b w (get "/auth/me") in
      match reply with
      | Success data => (w1, setLoading false (setUser (Some data) st))
      | Failure _ =>
          (removeItem "refresh_token" (removeItem "access_token" w1), setLoading false st)
      end
  | None => (w, setLoading false st)
  end.

Definition login (b : Backend) (w : World) (st : AuthState) (email0 password : string)
    : World * AuthState * Outcome :=
  let '(w1, reply) := api b w (post "/auth/login" [email0; password]) in
  match reply with
  | Failure _ => (w1, st, Rejected)
  | Success data =>
      let w2 := setItem "refresh_token" (refresh_token data)
                  (setItem "access_token" (access_token data) w1) in
      let '(w3, userReply) := api b w2 (get "/auth/me") in
      match userReply with
      | Failure _ => (w3, st, Rejected)
      | Success userData => (w3, setUser (Some userData) st, Resolved userData)
      end
  end.

Definition register (b : Backend) (w : World) (st : AuthState)
    (email0 username0 password : string) : World * AuthState * Outcome :=
  let '(w1, reply) := api b w (post "/auth/register" [email0; username0; password]) in
  match reply with
  | Failure _ => (w1, st, Rejected)
  | Success _ => login b w1 st email0 password
  end.

Definition logout (w : World) (st : AuthState) : World * AuthState :=
  (removeItem "refresh_token" (removeItem "access_token" w), setUser None st).

Definition isAuthenticated (st : AuthState) : bool :=
  match user st with Some _ => true | None => false end.

Definition isAdmin (st : AuthState) : bool :=
  match user st with
  | Some u => match role u with Some r => String.eqb r "admin" | None => false end
  | None => false
  end.

End AuthContext.

(** A server that answers the first request with a body that has no
    [access_token] and fails every later one, and a browser with nothing
    stored. *)
Definition forgetful : Http.Backend :=
  {| Http.respond := fun n _ =>
       match n with
       | O => Http.Success {| Http.access_token := None;
                              Http.refresh_token := Some "r1";
                              Http.role := None; Http.username := None;
                              Http.email := None |}
       | _ => Http.Failure (Some 500%nat)
       end;
     Http.refreshEndpoint := fun _ _ => None |}.

Definition blank : Http.World :=
  {| Http.storage := ∅; Http.href := None; Http.sent := []; Http.refreshCalls := [] |}.

(** * Properties *)

Local Open Scope list_scope.

(** ** The JavaScript primitives *)

Example toFixed_up : JS.toFixed 2 (12345 # 1000) == 1235 # 100.
Proof. reflexivity. Qed.

Example toFixed_neg : JS.toFixed 1 (- (125 # 100)) == - (13 # 10).
Proof. reflexivity. Qed.

Example includes_clog : JS.includes (JS.toLowerCase "Pipe CLOG risk") "clog" = true.
Proof. reflexivity. Qed.

Example includes_none : JS.includes (JS.toLowerCase "Pipe wear") "clog" = false.
Proof. reflexivity. Qed.

Lemma max0_nonneg x : 0 <= JS.max0 x.
Proof. apply Q.le_max_l. Qed.

Lemma toFixed_nonneg digits x : 0 <= x -> 0 <= JS.toFixed digits x.
Proof.
  intros Hx. unfold JS.toFixed.
  apply Qle_bool_iff in Hx as Hb. rewrite Hb.
  unfold Qle. cbn [Qnum Qden]. rewrite Z.mul_1_r, Z.mul_0_l.
  change 0%Z with (Qfloor 0). apply Qfloor_resp_le.
  set (sc := match digits with O => 1%positive | _ => JS.pow10 digits end).
  assert (0 <= Qabs x * (Z.pos sc # 1)).
  { apply Qmult_le_0_compat; [apply Qabs_nonneg | easy]. }
  lra.
Qed.

(** *** Rounding *)




(** ** Facts about one node *)

Section NodeFacts.

Variable ch : gmap string Q.
Variable det : gmap string SegDetails.
Variable seg : string.

Lemma damage_eq : damage ch seg = (100 - health ch seg) * (1 # 100).
Proof. reflexivity. Qed.

Lemma isCritical_true : isCritical ch seg = true <-> health ch seg < 75.
Proof.
  unfold isCritical. rewrite negb_true_iff, <- not_true_iff_false, Qle_bool_iff.
  split; [apply Qnot_le_lt | apply Qlt_not_le].
Qed.

Lemma isCritical_false : isCritical ch seg = false <-> 75 <= health ch seg.
Proof. unfold isCritical. rewrite negb_false_iff. apply Qle_bool_iff. Qed.

Lemma isWarning_true : isWarning ch seg = true <-> health ch seg < 90.
Proof.
  unfold isWarning. rewrite negb_true_iff, <- not_true_iff_false, Qle_bool_iff.
  split; [apply Qnot_le_lt | apply Qlt_not_le].
Qed.

Lemma isWarning_false : isWarning ch seg = false <-> 90 <= health ch seg.
Proof. unfold isWarning. rewrite negb_false_iff. apply Qle_bool_iff. Qed.

Lemma nodeStatus_spec : nodeStatus ch seg = spec_status (health ch seg).
Proof.
  unfold nodeStatus, spec_status.
  destruct (Qlt_le_dec (health ch seg) 75) as [Hc | Hc].
  - apply isCritical_true in Hc. now rewrite Hc.
  - apply isCritical_false in Hc. rewrite Hc.
    destruct (Qlt_le_dec (health ch seg) 90) as [Hw | Hw].
    + apply isWarning_true in Hw. now rewrite Hw.
    + apply isWarning_false in Hw. now rewrite Hw.
Qed.

End NodeFacts.

(** ** Facts about the cascade *)

Section CascadeFacts.

Variable ch : gmap string Q.
Variable det : gmap string SegDetails.

Lemma cascade_cons rng k s sensor rest :
  cascade ch det rng k s (sensor :: rest) =
    (fst (simulateSensor ch det s sensor (rng k))
       :: fst (cascade ch det rng (S k) (snd (simulateSensor ch det s sensor (rng k))) rest),
     snd (cascade ch det rng (S k) (snd (simulateSensor ch det s sensor (rng k))) rest)).
Proof.
  change (cascade ch det rng k s (sensor :: rest)) with
    (let '(sensor', s') := simulateSensor ch det s sensor (rng k) in
     let '(rest', s'') := cascade ch det rng (S k) s' rest in
     (sensor' :: rest', s'')).
  destruct (simulateSensor ch det s sensor (rng k)) as [out s'].
  cbn [fst snd].
  destruct (cascade ch det rng (S k) s' rest) as [outs s''].
  reflexivity.
Qed.

Lemma cascade_length rng k s l : length (fst (cascade ch det rng k s l)) = length l.
Proof.
  revert k s. induction l as [| sensor rest IH]; intros k s; [reflexivity |].
  rewrite cascade_cons. cbn [fst length]. now rewrite IH.
Qed.

Lemma cascade_status rng k s l :
  map status (fst (cascade ch det rng k s l)) =
  map (fun sensor => spec_status (health ch (segmentOf (id sensor)))) l.
Proof.
  revert k s. induction l as [| sensor rest IH]; intros k s; [reflexivity |].
  rewrite cascade_cons. cbn [fst map]. rewrite IH. f_equal.
  apply nodeStatus_spec.
Qed.

End CascadeFacts.





(** A tick that completes publishes the sensors of the cascade; on an empty
    sensor array it does not complete. *)
Lemma simulateFluidMetrics_sensors rng time st st' :
  simulateFluidMetrics rng time st = Some st' ->
  sensors st' = fst (cascade (healthRef st) (detailsRef st) rng 0 SOURCE (sensors st)) /\
  sensors st <> [].
Proof.
  unfold simulateFluidMetrics.
  pose proof (cascade_length (healthRef st) (detailsRef st) rng 0 SOURCE (sensors st)) as Hl.
  destruct (fst (cascade (healthRef st) (detailsRef st) rng 0 SOURCE (sensors st)))
    as [| s0 rest]; cbn [updateHistory]; [discriminate |].
  intros [= <-]. split; [reflexivity |]. intros He. rewrite He in Hl. discriminate.
Qed.




(** The leak scenario: B-C at health 60 with a leak driver.  The stream
    loses the friction alone at A and [0.8 + 0.4 * 25] at B, whose status is
    critical, 60 being below 75. *)
Example leak_scenario :
  streamPressure (snd (cascade leakHealth leakDetails (fun _ => calm) 0 SOURCE
                         (firstn 1 INITIAL_SENSORS))) == 79.2 /\
  streamPressure (snd (cascade leakHealth leakDetails (fun _ => calm) 0 SOURCE
                         (firstn 2 INITIAL_SENSORS))) == 68.4 /\
  map status (fst (cascade leakHealth leakDetails (fun _ => calm) 0 SOURCE INITIAL_SENSORS))
    = [normal; critical; normal; normal; normal].
Proof. split; [| split]; reflexivity. Qed.

(** ** Local targets and the damage factor *)

Ltac crit_cases ch seg :=
  let H := fresh "Hcrit" in
  destruct (isCritical ch seg) eqn:H;
  [ apply isCritical_true in H | apply isCritical_false in H ].

(** C9. With the drivers of the segment held fixed, the vibration, corrosion
    and acoustic targets do not decrease when the damage factor
    [(100 - health) / 100] grows. *)
Theorem targets_monotone_in_damage
    (det : gmap string SegDetails) (seg : string) (ch1 ch2 : gmap string Q) :
  damage ch1 seg <= damage ch2 seg ->
  targetVib ch1 det seg <= targetVib ch2 det seg /\
  targetCorrosion ch1 det seg <= targetCorrosion ch2 det seg /\
  targetAcoustic ch1 det seg <= targetAcoustic ch2 det seg.
Proof.
  intros Hd. rewrite !damage_eq in Hd.
  unfold targetVib, targetCorrosion, targetAcoustic.
  rewrite !damage_eq.
  destruct (hasDriver det seg "vibration"), (isBlockage det seg),
    (isCorrosion det seg), (isLeak det seg);
    crit_cases ch1 seg; crit_cases ch2 seg; cbn [orb];
    repeat split; lra.
Qed.

Lemma targets_monotone_in_damage_witness :
  damage INITIAL_HEALTH "C-D" <= damage clogHealth "C-D" /\
  targetVib INITIAL_HEALTH clogDetails "C-D" <= targetVib clogHealth clogDetails "C-D" /\
  targetCorrosion INITIAL_HEALTH clogDetails "C-D"
    <= targetCorrosion clogHealth clogDetails "C-D" /\
  targetAcoustic INITIAL_HEALTH clogDetails "C-D"
    <= targetAcoustic clogHealth clogDetails "C-D".
Proof.
  assert (H : damage INITIAL_HEALTH "C-D" <= damage clogHealth "C-D")
    by (vm_compute; discriminate).
  split; [exact H |].
  exact (targets_monotone_in_damage clogDetails "C-D" INITIAL_HEALTH clogHealth H).
Defined.

(** ** Blockage and the terminal node *)

Lemma snd_simulateSensor ch det s sensor r :
  snd (simulateSensor ch det s sensor r) = applyLosses ch det (segmentOf (id sensor)) s.
Proof. reflexivity. Qed.

(** C1, as the code has it.  At a node whose segment has a blockage-like
    driver the leak pressure drop is zero and the stream pressure gains the
    backpressure [damage * 5] before friction; the stream flow still loses
    [damage * 40] when the segment is leak-like or its health is below 75,
    and passes unchanged otherwise. *)
Theorem blockage_suppresses_pressure_drop_only
    (ch : gmap string Q) (det : gmap string SegDetails)
    (s : Stream) (sensor : Sensor) (r : Draws) :
  isBlockage det (segmentOf (id sensor)) = true ->
  leakPressureDrop ch det (segmentOf (id sensor)) == 0 /\
  streamPressure (snd (simulateSensor ch det s sensor r)) ==
    Qmax 0 (streamPressure s + damage ch (segmentOf (id sensor)) * 5 - 0.8) /\
  (isLeak det (segmentOf (id sensor)) = true \/ health ch (segmentOf (id sensor)) < 75 ->
   streamFlow (snd (simulateSensor ch det s sensor r)) ==
     Qmax 0 (streamFlow s - damage ch (segmentOf (id sensor)) * 40)) /\
  (isLeak det (segmentOf (id sensor)) = false -> 75 <= health ch (segmentOf (id sensor)) ->
   streamFlow (snd (simulateSensor ch det s sensor r)) == Qmax 0 (streamFlow s)).
Proof.
  intros Hb. rewrite snd_simulateSensor.
  set (seg := segmentOf (id sensor)) in *.
  unfold applyLosses, nextPressure, nextFlow, JS.max0, backpressure,
    leakPressureDrop, leakFlowLoss, frictionLoss.
  cbn [streamPressure streamFlow]. rewrite Hb.
  split; [reflexivity |]. split.
  - apply Q.max_compat; [reflexivity | ring].
  - split.
    + intros [Hl | Hc].
      * rewrite Hl. reflexivity.
      * apply isCritical_true in Hc. rewrite Hc, orb_true_r. reflexivity.
    + intros Hl Hc. apply isCritical_false in Hc. rewrite Hl, Hc.
      apply Q.max_compat; [reflexivity | cbn [orb]; ring].
Qed.

Lemma blockage_suppresses_pressure_drop_only_witness :
  let sensorC := mkSensor "SENSOR_C" "Sensor C (Crit)" "Segment C-D" 51.512 (-0.09) 73 in
  let s := {| streamPressure := 78.4; streamFlow := 355 |} in
  isBlockage clogDetails (segmentOf (id sensorC)) = true /\
  streamPressure (snd (simulateSensor clogHealth clogDetails s sensorC calm)) ==
    Qmax 0 (streamPressure s + damage clogHealth (segmentOf (id sensorC)) * 5 - 0.8).
Proof.
  intros sensorC s.
  assert (H : isBlockage clogDetails (segmentOf (id sensorC)) = true) by reflexivity.
  split; [exact H |].
  exact (proj1 (proj2
    (blockage_suppresses_pressure_drop_only clogHealth clogDetails s sensorC calm H))).
Defined.

(** C1, as stated, fails: with health 40 and a clog driver on C-D the node C
    is blockage-like, yet the stream flow it passes on has lost
    [0.6 * 40 = 24] of its 355. *)
Lemma clog_at_critical_health_loses_flow :
  isBlockage clogDetails (segmentOf "SENSOR_C") = true /\
  health clogHealth (segmentOf "SENSOR_C") == 40 /\
  leakFlowLoss clogHealth clogDetails (segmentOf "SENSOR_C") == 24 /\
  streamFlow (snd (cascade clogHealth clogDetails (fun _ => calm) 0 SOURCE
                     (firstn 3 INITIAL_SENSORS))) == 331 /\
  ~ streamFlow (snd (cascade clogHealth clogDetails (fun _ => calm) 0 SOURCE
                       (firstn 3 INITIAL_SENSORS))) == 355.
Proof.
  repeat split; try reflexivity.
  intros H. vm_compute in H. discriminate H.
Qed.





(** ** Non-negative pressure and flow *)

Lemma applyLosses_nonneg ch det seg s :
  0 <= streamPressure (applyLosses ch det seg s) /\
  0 <= streamFlow (applyLosses ch det seg s).
Proof. split; apply max0_nonneg. Qed.

Lemma simulateSensor_reading_nonneg ch det s sensor r :
  exists p f,
    pressure (fst (simulateSensor ch det s sensor r)) = Some p /\
    flow (fst (simulateSensor ch det s sensor r)) = Some f /\
    0 <= p /\ 0 <= f.
Proof.
  eexists _, _. split; [reflexivity |]. split; [reflexivity |].
  split; apply toFixed_nonneg, max0_nonneg.
Qed.

Lemma cascade_app ch det rng k s l1 l2 :
  snd (cascade ch det rng k s (l1 ++ l2)) =
  snd (cascade ch det rng (k + length l1) (snd (cascade ch det rng k s l1)) l2).
Proof.
  revert k s. induction l1 as [| sensor rest IH]; intros k s.
  - cbn [app length cascade snd]. now rewrite Nat.add_0_r.
  - cbn [app length]. rewrite !cascade_cons. cbn [snd].
    rewrite IH. now rewrite Nat.add_succ_comm.
Qed.

(** C6. Whatever the health scores, the drivers and the random draws: every
    reading published by a tick has a pressure and a flow that are not
    negative, and the stream handed on after any node of the cascade has a
    pressure and a flow that are not negative. *)
Theorem pressure_and_flow_never_negative
    (ch : gmap string Q) (det : gmap string SegDetails)
    (rng : nat -> Draws) (k : nat) (s : Stream) (prevSensors : list Sensor) :
  Forall (fun out => exists p f,
            pressure out = Some p /\ flow out = Some f /\ 0 <= p /\ 0 <= f)
         (fst (cascade ch det rng k s prevSensors)) /\
  (forall upstream sensor,
     0 <= streamPressure (snd (cascade ch det rng k s (upstream ++ [sensor]))) /\
     0 <= streamFlow (snd (cascade ch det rng k s (upstream ++ [sensor])))).
Proof.
  split.
  - revert k s. induction prevSensors as [| sensor rest IH]; intros k s.
    + constructor.
    + rewrite cascade_cons. cbn [fst]. constructor; [| apply IH].
      apply simulateSensor_reading_nonneg.
  - intros upstream sensor. rewrite cascade_app, cascade_cons. cbn [snd cascade].
    rewrite snd_simulateSensor. apply applyLosses_nonneg.
Qed.

(** ** Smoothing *)



(** ** Backend health *)

Lemma scores_of_map (sh : gmap string SegDetails) :
  map (fun kv => scoreOf (snd kv)) (map_to_list sh) =
  map snd (map_to_list (scoreOf <$> sh)).
Proof.
  rewrite map_to_list_fmap.
  induction (map_to_list sh) as [| [k v] l IH]; [reflexivity |].
  cbn. now rewrite IH.
Qed.

(** C10. A delivered health score of 0 is handled as a missing one.  On
    ingestion both are stored as 100, so the two messages leave the provider
    in the same state of health (per segment, in the ref read by the
    simulation, and in the system average); and the lookup of the cascade
    turns a stored 0 into 100 as well.  Such a segment is simulated with
    damage 0, status normal and no leak losses. *)
Theorem zero_score_counts_as_perfect
    (st : State) (sh : gmap string SegDetails) (seg : string)
    (drv : option (list Driver)) :
  let zero := {| health_score := Some 0; drivers := drv |} in
  let missing := {| health_score := None; drivers := drv |} in
  let st0 := handleBackendUpdate (Some {| system_health := Some (<[seg := zero]> sh) |}) st in
  let stm := handleBackendUpdate (Some {| system_health := Some (<[seg := missing]> sh) |}) st in
  (segmentHealth st0 !! seg = Some 100 /\ healthRef st0 !! seg = Some 100) /\
  (segmentHealth st0 = segmentHealth stm /\ healthRef st0 = healthRef stm /\
   systemHealth st0 = systemHealth stm) /\
  (health (healthRef st0) seg = 100 /\ damage (healthRef st0) seg == 0 /\
   nodeStatus (healthRef st0) seg = normal /\
   leakPressureDrop (healthRef st0) (detailsRef st0) seg == 0 /\
   leakFlowLoss (healthRef st0) (detailsRef st0) seg == 0) /\
  (forall ch : gmap string Q,
     ch !! seg = Some 0 ->
     health ch seg = 100 /\ health ch seg = health (delete seg ch) seg /\
     nodeStatus ch seg = normal).
Proof.
  intros zero missing st0 stm.
  assert (Hseg : scoreOf <$> <[seg := zero]> sh = <[seg := 100]> (scoreOf <$> sh))
    by now rewrite fmap_insert.
  assert (Hmis : scoreOf <$> <[seg := missing]> sh = <[seg := 100]> (scoreOf <$> sh))
    by now rewrite fmap_insert.
  assert (Hlook : healthRef st0 !! seg = Some 100).
  { cbn. rewrite Hseg. apply lookup_insert_eq. }
  assert (Hh : health (healthRef st0) seg = 100).
  { unfold health. now rewrite Hlook. }
  split; [| split; [| split]].
  - split; exact Hlook.
  - cbn. rewrite !scores_of_map, Hseg, Hmis. repeat split.
  - split; [exact Hh |].
    unfold leakPressureDrop, leakFlowLoss, nodeStatus, isCritical, isWarning.
    rewrite damage_eq, Hh.
    split; [reflexivity |]. split; [reflexivity |]. split.
    + destruct (isBlockage (detailsRef st0) seg), (isLeak (detailsRef st0) seg);
        reflexivity.
    + destruct (isLeak (detailsRef st0) seg); reflexivity.
  - intros ch Hz. unfold nodeStatus, isCritical, isWarning, health.
    rewrite Hz, lookup_delete_eq. repeat split.
Qed.

(** ** The history window *)

Section SliceLast.

Context {A : Type}.
Implicit Types l m : list A.

Lemma slice_last_length n l : (length (slice_last n l) <= n)%nat.
Proof. unfold slice_last. rewrite length_skipn. lia. Qed.

Lemma slice_last_short n l : (length l <= n)%nat -> slice_last n l = l.
Proof.
  intros H. unfold slice_last.
  replace (length l - n)%nat with 0%nat by lia. reflexivity.
Qed.

Lemma slice_last_full n l e :
  length l = n -> n <> 0%nat -> slice_last n (l ++ [e]) = tail l ++ [e].
Proof.
  intros H Hn. unfold slice_last. rewrite length_app. cbn [length].
  replace (length l + 1 - n)%nat with 1%nat by lia.
  destruct l as [| x l']; [cbn in H; congruence | reflexivity].
Qed.

(** Cutting to the window before appending loses nothing the window
    would have kept. *)
Lemma slice_last_app n l m :
  slice_last n (slice_last n l ++ m) = slice_last n (l ++ m).
Proof.
  unfold slice_last at 2.
  replace (skipn (length l - n) l ++ m) with (skipn (length l - n) (l ++ m)).
  - unfold slice_last. rewrite skipn_skipn, length_skipn. f_equal.
    rewrite length_app. lia.
  - rewrite skipn_app. replace (length l - n - length l)%nat with 0%nat by lia.
    reflexivity.
Qed.

End SliceLast.

Lemma cascade_ids ch det rng k s l :
  map id (fst (cascade ch det rng k s l)) = map id l.
Proof.
  revert k s. induction l as [| sensor rest IH]; intros k s; [reflexivity |].
  rewrite cascade_cons. cbn [fst map]. now rewrite IH.
Qed.

Lemma wellFormed_first st :
  wellFormed st -> exists s0 rest, sensors st = s0 :: rest /\ id s0 = "SENSOR_A".
Proof.
  intros [Hid _]. destruct (sensors st) as [| s0 rest]; [discriminate |].
  exists s0, rest. split; [reflexivity |]. cbn in Hid. congruence.
Qed.

(** An active tick on a well-formed state: it succeeds, and appends the
    entry of the new first sensor to the window. *)
Lemma simulateFluidMetrics_wellFormed rng time st :
  wellFormed st ->
  exists st' s0,
    simulateFluidMetrics rng time st = Some st' /\
    wellFormed st' /\
    head (sensors st') = Some s0 /\ id s0 = "SENSOR_A" /\
    sensors st' = fst (cascade (healthRef st) (detailsRef st) rng 0 SOURCE (sensors st)) /\
    history st' = slice_last 30 (history st ++ [entryOf time s0]) /\
    isLive st' = isLive st /\ isLiveRef st' = isLiveRef st /\
    healthRef st' = healthRef st /\ detailsRef st' = detailsRef st.
Proof.
  intros [Hid Hlen]. unfold simulateFluidMetrics.
  pose proof (cascade_ids (healthRef st) (detailsRef st) rng 0 SOURCE (sensors st)) as Hids.
  rewrite Hid in Hids.
  destruct (fst (cascade (healthRef st) (detailsRef st) rng 0 SOURCE (sensors st)))
    as [| s0 rest] eqn:Hc; [discriminate |].
  cbn [updateHistory]. eexists _, s0. split; [reflexivity |].
  cbn [sensors history isLive isLiveRef healthRef detailsRef head].
  repeat split; try reflexivity.
  - cbn [sensors]. exact Hids.
  - cbn [history]. apply slice_last_length.
  - cbn in Hids. congruence.
Qed.

Lemma ticks_history inputs : forall st,
  wellFormed st ->
  exists st' entries,
    ticks inputs st = Some (st', entries) /\
    wellFormed st' /\
    length entries = length inputs /\
    history st' = slice_last 30 (history st ++ entries).
Proof.
  induction inputs as [| [rng time] rest IH]; intros st Hwf.
  - exists st, []. cbn [ticks length]. repeat split; try apply Hwf.
    rewrite app_nil_r. symmetry. apply slice_last_short, Hwf.
  - destruct (simulateFluidMetrics_wellFormed rng time st Hwf)
      as (st1 & s0 & Hsim & Hwf1 & Hhd & _ & _ & Hhist & _).
    destruct (IH st1 Hwf1) as (st' & entries & Ht & Hwf' & Hlen & Hh).
    exists st', (entryOf time s0 :: entries).
    cbn [ticks]. rewrite Hsim, Hhd, Ht. repeat split; try apply Hwf'.
    + cbn [length]. now rewrite Hlen.
    + rewrite Hh, Hhist, slice_last_app, <- app_assoc. reflexivity.
Qed.

(** *** Every reachable state is well formed, and no run gets stuck *)

Lemma wellFormed_initial : wellFormed initial.
Proof. split; [reflexivity | cbn; lia]. Qed.

Lemma wellFormed_setIsLive b st : wellFormed st -> wellFormed (setIsLive b st).
Proof. intros H. exact H. Qed.

Lemma wellFormed_syncLiveRef st : wellFormed st -> wellFormed (syncLiveRef st).
Proof. intros H. exact H. Qed.

Lemma wellFormed_handleBackendUpdate data st :
  wellFormed st -> wellFormed (handleBackendUpdate data st).
Proof.
  intros H. unfold handleBackendUpdate.
  destruct data as [d |]; [| exact H].
  destruct (system_health d); exact H.
Qed.

Lemma wellFormed_timeouts l : forall rt,
  wellFormed (component rt) ->
  wellFormed (component (fold_left (fun r t => timeoutCallback t r) l rt)).
Proof.
  induction l as [| t l IH]; intros rt H; [exact H |].
  cbn [fold_left]. apply IH. exact H.
Qed.

Lemma intervalCallback_wellFormed rng time st :
  wellFormed st ->
  exists st', intervalCallback rng time st = Some st' /\ wellFormed st'.
Proof.
  intros H. unfold intervalCallback. destruct (isLiveRef st).
  - destruct (simulateFluidMetrics_wellFormed rng time st H) as (st' & s0 & Hs & Hw & _).
    eauto.
  - eauto.
Qed.

Lemma elapse1_wellFormed env rt :
  wellFormed (component rt) ->
  exists rt', elapse1 env rt = Some rt' /\ wellFormed (component rt').
Proof.
  intros H. unfold elapse1.
  set (now := (clock rt + 1)%N).
  set (rt1 := {| component := component rt; clock := now;
                 timers := List.filter (fun t => negb (due t <=? now)%N) (timers rt);
                 promises := promises rt; settled := settled rt |}).
  set (rt2 := onComponent syncLiveRef
                (fold_left (fun r t => timeoutCallback t r)
                   (List.filter (fun t => (due t <=? now)%N) (timers rt)) rt1)).
  assert (H2 : wellFormed (component rt2)).
  { apply wellFormed_syncLiveRef, wellFormed_timeouts. exact H. }
  destruct (now mod 1000 =? 0)%N; [| eauto].
  destruct (intervalCallback_wellFormed (random env now) (localTime env now) _ H2)
    as (st' & Hi & Hw).
  rewrite Hi. eauto.
Qed.

Lemma elapse_succ env ms rt :
  elapse env (N.succ ms) rt =
  match elapse env ms rt with Some r => elapse1 env r | None => None end.
Proof. unfold elapse. now rewrite N.iter_succ. Qed.

Lemma elapse_wellFormed env ms rt :
  wellFormed (component rt) ->
  exists rt', elapse env ms rt = Some rt' /\ wellFormed (component rt').
Proof.
  intros H. induction ms as [| ms IH] using N.peano_ind.
  - exists rt. split; [reflexivity | exact H].
  - destruct IH as (r & Hr & Hw). rewrite elapse_succ, Hr.
    apply elapse1_wellFormed, Hw.
Qed.

Lemma perform_wellFormed env rt a :
  wellFormed (component rt) ->
  exists rt', perform env rt a = Some rt' /\ wellFormed (component rt').
Proof.
  intros H. destruct a as [ms | | b | data]; cbn [perform].
  - apply elapse_wellFormed, H.
  - eexists. split; [reflexivity |].
    unfold runDiagnostics. destruct (isLive (component rt)); exact H.
  - eexists. split; [reflexivity | exact H].
  - eexists. split; [reflexivity |]. apply wellFormed_handleBackendUpdate, H.
Qed.

Lemma run_wellFormed env trace : forall rt,
  wellFormed (component rt) ->
  exists rt', run env rt trace = Some rt' /\ wellFormed (component rt').
Proof.
  induction trace as [| a rest IH]; intros rt H.
  - exists rt. split; [reflexivity | exact H].
  - destruct (perform_wellFormed env rt a H) as (r & Hp & Hw).
    cbn [run]. rewrite Hp. apply IH, Hw.
Qed.

(** C7. In every state the provider can reach, the history holds at most 30
    entries.  A tick that is suppressed leaves it alone; an active tick
    appends exactly one entry, made of the time and of the new reading of
    the first sensor (SENSOR_A), and keeps the last 30: the new entry goes
    to the end, and once 30 are held the oldest one, at the front, is
    dropped.  Over any run of active ticks the history is the last 30 of the
    old history followed by the new entries in the order they were made. *)
Theorem history_is_a_sliding_window (env : Env) (trace : list Action) :
  exists rt,
    run env boot trace = Some rt /\
    (length (history (component rt)) <= 30)%nat /\
    (forall rng time,
       (isLiveRef (component rt) = false /\
        intervalCallback rng time (component rt) = Some (component rt)) \/
       (isLiveRef (component rt) = true /\
        exists st' s0,
          intervalCallback rng time (component rt) = Some st' /\
          head (sensors st') = Some s0 /\ id s0 = "SENSOR_A" /\
          history st' = slice_last 30 (history (component rt) ++ [entryOf time s0]) /\
          ((length (history (component rt)) < 30)%nat ->
           history st' = history (component rt) ++ [entryOf time s0]) /\
          (length (history (component rt)) = 30%nat ->
           history st' = tail (history (component rt)) ++ [entryOf time s0]) /\
          (length (history st') <= 30)%nat)) /\
    (forall inputs,
       exists st' entries,
         ticks inputs (component rt) = Some (st', entries) /\
         length entries = length inputs /\
         history st' = slice_last 30 (history (component rt) ++ entries)).
Proof.
  destruct (run_wellFormed env trace boot wellFormed_initial) as (rt & Hrun & Hwf).
  exists rt. split; [exact Hrun |]. split; [apply Hwf |]. split.
  - intros rng time. unfold intervalCallback.
    destruct (isLiveRef (component rt)); [right | left; split; reflexivity].
    split; [reflexivity |].
    destruct (simulateFluidMetrics_wellFormed rng time _ Hwf)
      as (st' & s0 & Hs & Hw' & Hhd & Hid & _ & Hh & _).
    exists st', s0. repeat split; try assumption.
    + intros Hlt. rewrite Hh. apply slice_last_short.
      rewrite length_app. cbn [length]. lia.
    + intros Heq. rewrite Hh. now apply slice_last_full.
    + apply Hw'.
  - intros inputs.
    destruct (ticks_history inputs _ Hwf) as (st' & entries & Ht & _ & Hl & Hh).
    eauto.
Qed.

(** ** The run state *)

Lemma syncLiveRef_id st : isLiveRef st = isLive st -> syncLiveRef st = st.
Proof. destruct st. cbn. now intros ->. Qed.

Lemma advance_0 rt : advance 0 rt = rt.
Proof. destruct rt. unfold advance. cbn. now rewrite N.add_0_r. Qed.

Lemma timers_not_due now l :
  Forall (fun t => (now < due t)%N) l ->
  List.filter (fun t => (due t <=? now)%N) l = [] /\
  List.filter (fun t => negb (due t <=? now)%N) l = l.
Proof.
  induction 1 as [| t l Ht _ [IH1 IH2]]; [split; reflexivity |].
  cbn [List.filter]. apply N.leb_gt in Ht. rewrite Ht. cbn [negb].
  now rewrite IH1, IH2.
Qed.

(** A millisecond in which no timeout is due and no tick is produced. *)
Lemma elapse1_quiet env rt :
  isLiveRef (component rt) = isLive (component rt) ->
  Forall (fun t => (clock rt + 1 < due t)%N) (timers rt) ->
  isLive (component rt) = false \/ ((clock rt + 1) mod 1000 <> 0)%N ->
  elapse1 env rt = Some (advance 1 rt).
Proof.
  intros Hsync Hdue Hquiet. unfold elapse1.
  destruct (timers_not_due _ _ Hdue) as [-> ->].
  cbn [fold_left]. unfold onComponent. cbn [component clock timers promises settled].
  rewrite (syncLiveRef_id _ Hsync).
  destruct (N.eqb_spec ((clock rt + 1) mod 1000) 0) as [Hz | Hnz]; [| reflexivity].
  destruct Hquiet as [Hp | Hn]; [| contradiction].
  unfold intervalCallback. rewrite Hsync, Hp. reflexivity.
Qed.

Lemma elapse_quiet env ms rt :
  isLiveRef (component rt) = isLive (component rt) ->
  Forall (fun t => (clock rt + ms < due t)%N) (timers rt) ->
  isLive (component rt) = false \/
    (forall k, (0 < k <= ms)%N -> ((clock rt + k) mod 1000 <> 0)%N) ->
  elapse env ms rt = Some (advance ms rt).
Proof.
  intros Hsync. induction ms as [| ms IH] using N.peano_ind; intros Hdue Hquiet.
  - now rewrite advance_0.
  - rewrite elapse_succ, IH.
    + rewrite elapse1_quiet.
      * unfold advance. cbn [component clock timers promises settled].
        do 2 f_equal. lia.
      * exact Hsync.
      * cbn [advance clock timers]. eapply Forall_impl; [exact Hdue |].
        cbn. intros t Ht. lia.
      * cbn [advance clock component]. destruct Hquiet as [Hp | Hk]; [now left | right].
        replace (clock rt + ms + 1)%N with (clock rt + N.succ ms)%N by lia.
        apply Hk. lia.
    + eapply Forall_impl; [exact Hdue |]. cbn. intros t Ht. lia.
    + destruct Hquiet as [Hp | Hk]; [now left | right].
      intros k Hk'. apply Hk. lia.
Qed.











Lemma intervalCallback_flags rng time st :
  wellFormed st ->
  exists st',
    intervalCallback rng time st = Some st' /\
    isLive st' = isLive st /\ isLiveRef st' = isLiveRef st.
Proof.
  intros H. unfold intervalCallback. destruct (isLiveRef st) eqn:Hr.
  - destruct (simulateFluidMetrics_wellFormed rng time st H)
      as (st' & s0 & Hs & _ & _ & _ & _ & _ & Hl & Hlr & _).
    exists st'. rewrite Hlr. auto.
  - exists st. auto.
Qed.

(** The millisecond in which the only pending timeout of a paused provider
    fires. *)
Lemma elapse1_resume env rt t :
  wellFormed (component rt) ->
  timers rt = [t] -> due t = (clock rt + 1)%N ->
  exists rt',
    elapse1 env rt = Some rt' /\
    isLive (component rt') = true /\ isLiveRef (component rt') = true /\
    settled rt' = settled rt ++ [(promise t, "started")] /\
    clock rt' = (clock rt + 1)%N /\ timers rt' = [].
Proof.
  intros Hwf Ht Hdue. unfold elapse1. rewrite Ht. cbn [List.filter].
  rewrite Hdue, N.leb_refl. cbn [negb fold_left].
  unfold onComponent, timeoutCallback. cbn [component clock timers promises settled].
  destruct ((clock rt + 1) mod 1000 =? 0)%N.
  - destruct (intervalCallback_flags (random env (clock rt + 1)) (localTime env (clock rt + 1))
                (syncLiveRef (setIsLive true (component rt))) Hwf)
      as (st' & Hi & Hl & Hlr).
    rewrite Hi. eexists. split; [reflexivity |].
    cbn [component clock timers settled]. rewrite Hl, Hlr. repeat split.
  - eexists. split; [reflexivity |]. repeat split.
Qed.

(** C8, as the code has it.  For a provider that has rendered ([isLiveRef]
    agrees with [isLive]):
    - a resume requested while it is paused with no other resume pending
      leaves it untouched for the next 5999 ms (not live, no tick, promise
      unresolved) and, at 6000 ms exactly, sets it live and resolves the
      promise with "started";
    - a pause takes effect in the call itself: the provider is not live, the
      promise is resolved with "paused", and nothing changes for as long as
      no timeout of an earlier resume falls due, so for ever when none is
      pending. *)
Theorem resume_waits_and_pause_is_immediate (env : Env) (rt : Runtime) :
  wellFormed (component rt) ->
  isLiveRef (component rt) = isLive (component rt) ->
  let rt1 := onComponent syncLiveRef (fst (runDiagnostics rt)) in
  let p := snd (runDiagnostics rt) in
  (isLive (component rt) = false -> timers rt = [] ->
   component rt1 = component rt /\ settled rt1 = settled rt /\
   (forall ms, (ms < 6000)%N -> elapse env ms rt1 = Some (advance ms rt1)) /\
   exists rt',
     elapse env 6000 rt1 = Some rt' /\
     isLive (component rt') = true /\ isLiveRef (component rt') = true /\
     settled rt' = settled rt ++ [(p, "started")] /\
     clock rt' = (clock rt + 6000)%N /\ timers rt' = []) /\
  (isLive (component rt) = true ->
   isLive (component rt1) = false /\ isLiveRef (component rt1) = false /\
   clock rt1 = clock rt /\ timers rt1 = timers rt /\
   settled rt1 = settled rt ++ [(p, "paused")] /\
   sensors (component rt1) = sensors (component rt) /\
   history (component rt1) = history (component rt) /\
   (forall ms, Forall (fun t => (clock rt + ms < due t)%N) (timers rt) ->
               elapse env ms rt1 = Some (advance ms rt1))).
Proof.
  intros Hwf Hsync rt1 p. split.
  - intros Hp Ht.
    assert (E1 : rt1 = {| component := component rt; clock := clock rt;
                          timers := [{| due := clock rt + 6000; promise := p |}];
                          promises := S p; settled := settled rt |}).
    { unfold rt1, p, runDiagnostics, onComponent. rewrite Hp, Ht.
      cbn [fst snd component clock timers promises settled app].
      rewrite syncLiveRef_id by exact Hsync. reflexivity. }
    assert (Hq : forall ms, (ms < 6000)%N -> elapse env ms rt1 = Some (advance ms rt1)).
    { intros ms Hms. apply elapse_quiet.
      - rewrite E1. exact Hsync.
      - rewrite E1. cbn [timers clock]. constructor; [cbn [due]; lia | constructor].
      - left. rewrite E1. exact Hp. }
    split; [now rewrite E1 |]. split; [now rewrite E1 |]. split; [exact Hq |].
    pose proof (elapse_succ env 5999 rt1) as E. change (N.succ 5999) with 6000%N in E.
    rewrite E, Hq by lia.
    destruct (elapse1_resume env (advance 5999 rt1) {| due := clock rt + 6000; promise := p |})
      as (rt' & He & Hl & Hlr & Hs & Hc & Htm).
    + rewrite E1. exact Hwf.
    + rewrite E1. reflexivity.
    + rewrite E1. cbn [due advance clock]. lia.
    + exists rt'. rewrite He, Hl, Hlr, Hs, Hc, Htm, E1.
      cbn [advance clock settled promise]. repeat split. lia.
  - intros Hl.
    assert (E1 : rt1 = {| component := syncLiveRef (setIsLive false (component rt));
                          clock := clock rt; timers := timers rt; promises := S p;
                          settled := settled rt ++ [(p, "paused")] |}).
    { unfold rt1, p, runDiagnostics, onComponent. rewrite Hl. reflexivity. }
    rewrite E1. cbn [component clock timers settled]. repeat split.
    intros ms Hdue. apply elapse_quiet; [reflexivity | exact Hdue | now left].
Qed.

Lemma resume_waits_and_pause_is_immediate_witness :
  wellFormed (component pausedBoot) /\
  isLiveRef (component pausedBoot) = isLive (component pausedBoot) /\
  isLive (component pausedBoot) = false /\ timers pausedBoot = [] /\
  exists rt',
    elapse calmEnv 6000 (onComponent syncLiveRef (fst (runDiagnostics pausedBoot))) = Some rt' /\
    isLive (component rt') = true /\ isLiveRef (component rt') = true /\
    settled rt' = settled pausedBoot ++ [(snd (runDiagnostics pausedBoot), "started")] /\
    clock rt' = (clock pausedBoot + 6000)%N /\ timers rt' = [].
Proof.
  assert (Hwf : wellFormed (component pausedBoot)) by exact wellFormed_initial.
  assert (Hsync : isLiveRef (component pausedBoot) = isLive (component pausedBoot))
    by reflexivity.
  split; [exact Hwf |]. split; [exact Hsync |].
  split; [reflexivity |]. split; [reflexivity |].
  exact (proj2 (proj2 (proj2
    (proj1 (resume_waits_and_pause_is_immediate calmEnv pausedBoot Hwf Hsync)
       eq_refl eq_refl)))).
Defined.

(** C8, as stated, fails when two resumes overlap.  The provider is paused
    at mount; a resume is requested at 500 ms and another at 3500 ms.  At
    7000 ms, in the middle of the delay of the second, the provider has been
    live since 6500 ms and has ticked.  A pause at 7200 ms takes effect at
    once and holds at 9499 ms, but at 9500 ms the timeout of the second
    resume sets the provider live again, and it ticks at 10000 ms, with no
    resume requested after the pause. *)
Lemma stale_resume_overrides_pause :
  let prefix :=
    [RunDiagnostics; Elapse 500; RunDiagnostics; Elapse 3000; RunDiagnostics] in
  option_map observe (run calmEnv boot (prefix ++ [Elapse 3500])) =
    Some (true, 7000%N, 1%nat, [(0%nat, "paused"); (1%nat, "started")]) /\
  option_map observe (run calmEnv boot (prefix ++ [Elapse 3700; RunDiagnostics])) =
    Some (false, 7200%N, 1%nat, [(0%nat, "paused"); (1%nat, "started"); (3%nat, "paused")]) /\
  option_map observe
    (run calmEnv boot (prefix ++ [Elapse 3700; RunDiagnostics; Elapse 2299])) =
    Some (false, 9499%N, 1%nat, [(0%nat, "paused"); (1%nat, "started"); (3%nat, "paused")]) /\
  option_map observe
    (run calmEnv boot (prefix ++ [Elapse 3700; RunDiagnostics; Elapse 2800])) =
    Some (true, 10000%N, 2%nat,
          [(0%nat, "paused"); (1%nat, "started"); (3%nat, "paused"); (2%nat, "started")]).
Proof.
  cbv zeta. repeat split; vm_compute; reflexivity.
Qed.

(** * Further properties of the provider *)

(** ** Looking a sensor up *)

Lemma find_by_id (l : list Sensor) :
  NoDup (map id l) ->
  forall i s, l !! i = Some s ->
    List.find (fun x => String.eqb (id x) (id s)) l = Some s.
Proof.
  induction l as [| x l IH]; intros Hnd i s Hi; [discriminate |].
  cbn [map] in Hnd. apply NoDup_cons in Hnd as [Hx Hnd].
  cbn [List.find]. destruct i as [| i]; cbn in Hi.
  - injection Hi as ->. now rewrite String.eqb_refl.
  - destruct (String.eqb_spec (id x) (id s)) as [Heq | Hne].
    + exfalso. apply Hx. rewrite Heq. apply list_elem_of_In, in_map, list_elem_of_In.
      now apply list_elem_of_lookup_2 in Hi.
    + now apply (IH Hnd i).
Qed.

Lemma find_no_id (l : list Sensor) sid :
  ~ In sid (map id l) ->
  List.find (fun x => String.eqb (id x) sid) l = None.
Proof.
  induction l as [| x l IH]; intros Hn; [reflexivity |].
  cbn [List.find]. destruct (String.eqb_spec (id x) sid) as [Heq | Hne].
  - exfalso. apply Hn. now left.
  - apply IH. intros Hin. apply Hn. now right.
Qed.

Lemma topology_ids_distinct : NoDup (map id INITIAL_SENSORS).
Proof. apply (bool_decide_unpack _). vm_compute. exact I. Qed.

Lemma last_slice_last {A} n (l : list A) e :
  n <> 0%nat -> last (slice_last n (l ++ [e])) = Some e.
Proof.
  intros Hn. unfold slice_last. rewrite length_app, skipn_app. cbn [length].
  replace (length l + 1 - n - length l)%nat with 0%nat by lia.
  cbn [skipn]. apply last_snoc.
Qed.

(** X1. In every state the provider can reach, [getSensorReading] returns
    each sensor of the array under its own id and the zero object (pressure,
    flow, temperature, vibration and corrosion 0, no acoustic level) under
    any id outside the topology; and after an active tick the newest history
    entry carries the pressure, flow and temperature that
    [getSensorReading('SENSOR_A')] returns. *)
Theorem getSensorReading_of_topology (env : Env) (trace : list Action) :
  exists rt,
    run env boot trace = Some rt /\
    (forall i s, sensors (component rt) !! i = Some s ->
       getSensorReading (sensors (component rt)) (id s) = SensorReading s) /\
    (forall sid, ~ In sid (map id INITIAL_SENSORS) ->
       getSensorReading (sensors (component rt)) sid = ZeroReading) /\
    (readingPressure ZeroReading = Some 0 /\ readingFlow ZeroReading = Some 0 /\
     readingTemp ZeroReading = Some 0 /\ readingVibration ZeroReading = Some 0 /\
     readingCorrosion ZeroReading = Some 0 /\ readingAcoustic ZeroReading = None) /\
    (forall rng time,
       exists st' newest,
         simulateFluidMetrics rng time (component rt) = Some st' /\
         last (history st') = Some newest /\
         h_pressure newest = readingPressure (getSensorReading (sensors st') "SENSOR_A") /\
         h_flow newest = readingFlow (getSensorReading (sensors st') "SENSOR_A") /\
         h_temp newest = readingTemp (getSensorReading (sensors st') "SENSOR_A") /\
         timestamp newest = time).
Proof.
  destruct (run_wellFormed env trace boot wellFormed_initial) as (rt & Hrun & Hwf).
  exists rt. split; [exact Hrun |].
  assert (Hnd : NoDup (map id (sensors (component rt)))).
  { destruct Hwf as [-> _]. apply topology_ids_distinct. }
  split; [| split; [| split]].
  - intros i s Hi. unfold getSensorReading. now rewrite (find_by_id _ Hnd i s Hi).
  - intros sid Hsid. unfold getSensorReading. rewrite find_no_id; [reflexivity |].
    destruct Hwf as [-> _]. exact Hsid.
  - repeat split.
  - intros rng time.
    destruct (simulateFluidMetrics_wellFormed rng time _ Hwf)
      as (st' & s0 & Hs & Hwf' & Hhd & Hid & _ & Hh & _).
    exists st', (entryOf time s0). split; [exact Hs |].
    split; [rewrite Hh; now apply last_slice_last |].
    assert (Hget : getSensorReading (sensors st') "SENSOR_A" = SensorReading s0).
    { apply head_Some in Hhd as [rest Hrest]. unfold getSensorReading.
      rewrite Hrest. cbn [List.find]. rewrite Hid. reflexivity. }
    rewrite Hget. repeat split.
Qed.

(** ** What a tick leaves alone *)

Lemma cascade_identity ch det rng k s l :
  map sensorIdentity (fst (cascade ch det rng k s l)) = map sensorIdentity l.
Proof.
  revert k s. induction l as [| sensor rest IH]; intros k s; [reflexivity |].
  rewrite cascade_cons. cbn [fst map]. now rewrite IH.
Qed.

Lemma cascade_metrics_present ch det rng k s l :
  Forall allMetricsPresent (fst (cascade ch det rng k s l)).
Proof.
  revert k s. induction l as [| sensor rest IH]; intros k s; [constructor |].
  rewrite cascade_cons. cbn [fst]. constructor; [| apply IH].
  unfold allMetricsPresent, simulateSensor. cbn. repeat split; eauto.
Qed.

(** X2. A tick that completes rewrites the readings and nothing else: the
    id, name, location and coordinates of every sensor, the number of
    sensors, the health scores and details, their refs and the live flag are
    those of before; and every sensor it produces has all six metrics
    defined, so a metric can be missing only before the first tick.  On an
    empty sensor array a tick does not complete. *)
Theorem tick_keeps_identity_and_health
    (st st' : State) (rng : nat -> Draws) (time : string) :
  simulateFluidMetrics rng time st = Some st' ->
  map sensorIdentity (sensors st') = map sensorIdentity (sensors st) /\
  length (sensors st') = length (sensors st) /\
  Forall allMetricsPresent (sensors st') /\
  segmentHealth st' = segmentHealth st /\
  systemHealth st' = systemHealth st /\
  systemHealthDetails st' = systemHealthDetails st /\
  healthRef st' = healthRef st /\ detailsRef st' = detailsRef st /\
  isLive st' = isLive st /\ isLiveRef st' = isLiveRef st /\
  sensors st <> [].
Proof.
  intros Htick. pose proof (simulateFluidMetrics_sensors _ _ _ _ Htick) as [Hs Hne].
  rewrite Hs.
  split; [apply cascade_identity |]. split; [apply cascade_length |].
  split; [apply cascade_metrics_present |].
  unfold simulateFluidMetrics in Htick.
  destruct (updateHistory _ time (history st)); [| discriminate].
  injection Htick as <-. repeat split. exact Hne.
Qed.

Lemma tick_keeps_identity_and_health_witness :
  exists st',
    simulateFluidMetrics (fun _ => calm) "12:00:00" initial = Some st' /\
    map sensorIdentity (sensors st') = map sensorIdentity INITIAL_SENSORS /\
    Forall allMetricsPresent (sensors st').
Proof.
  destruct (simulateFluidMetrics (fun _ => calm) "12:00:00" initial) as [st' |] eqn:E;
    [| vm_compute in E; discriminate E].
  exists st'. split; [reflexivity |].
  destruct (tick_keeps_identity_and_health initial st' _ _ E) as (Hi & _ & Hm & _).
  split; [exact Hi | exact Hm].
Defined.

(** ** What the noise cannot reach *)

(** X3. The stream, the statuses and the corrosion rates of a tick depend
    on the sensor ids and on the health snapshot alone: two cascades over
    arrays with the same ids give the same stream, statuses and corrosion,
    whatever the random draws and the previous readings. *)
Theorem status_and_corrosion_carry_no_noise
    (ch : gmap string Q) (det : gmap string SegDetails)
    (rng1 rng2 : nat -> Draws) (k1 k2 : nat) (s : Stream) (l1 l2 : list Sensor) :
  map id l1 = map id l2 ->
  snd (cascade ch det rng1 k1 s l1) = snd (cascade ch det rng2 k2 s l2) /\
  map status (fst (cascade ch det rng1 k1 s l1)) =
    map status (fst (cascade ch det rng2 k2 s l2)) /\
  map corrosion (fst (cascade ch det rng1 k1 s l1)) =
    map corrosion (fst (cascade ch det rng2 k2 s l2)).
Proof.
  revert l2 k1 k2 s. induction l1 as [| a l1 IH]; intros [| b l2] k1 k2 s Hid;
    try discriminate.
  - repeat split.
  - cbn [map] in Hid. injection Hid as Hab Hrest.
    rewrite !cascade_cons. cbn [fst snd map]. rewrite !snd_simulateSensor, Hab.
    destruct (IH l2 (S k1) (S k2) (applyLosses ch det (segmentOf (id b)) s) Hrest)
      as (Hs & Hst & Hc).
    rewrite Hs, Hst, Hc. unfold simulateSensor. cbn [fst status corrosion].
    rewrite Hab. repeat split.
Qed.

Lemma status_and_corrosion_carry_no_noise_witness :
  let loud := fun _ : nat => {| rP := 0.9; rF := 0.1; rV := 0.7; rA := 0.9; rT := 0.2 |} in
  let later := fst (cascade clogHealth clogDetails loud 0 SOURCE INITIAL_SENSORS) in
  map id INITIAL_SENSORS = map id later /\
  map status (fst (cascade clogHealth clogDetails (fun _ => calm) 0 SOURCE INITIAL_SENSORS)) =
    map status (fst (cascade clogHealth clogDetails loud 7 SOURCE later)).
Proof.
  intros loud later.
  assert (H : map id INITIAL_SENSORS = map id later) by reflexivity.
  split; [exact H |].
  exact (proj1 (proj2 (status_and_corrosion_carry_no_noise clogHealth clogDetails
                         (fun _ => calm) loud 0 7 SOURCE INITIAL_SENSORS later H))).
Defined.

Ltac max_cases :=
  repeat match goal with
  | |- context [Qmax ?a ?b] =>
      let H := fresh "Hmax" in
      pose proof (Q.max_spec a b) as H;
      let m := fresh "m" in set (m := Qmax a b) in *; clearbody m
  end.

(** ** The stream along the pipeline *)

Lemma healthy_node ch det seg s :
  75 <= health ch seg -> isLeak det seg = false -> isBlockage det seg = false ->
  streamPressure (applyLosses ch det seg s) == Qmax 0 (streamPressure s - 0.8) /\
  streamFlow (applyLosses ch det seg s) == Qmax 0 (streamFlow s).
Proof.
  intros Hc Hl Hb. apply isCritical_false in Hc.
  unfold applyLosses, nextPressure, nextFlow, JS.max0, backpressure, leakPressureDrop,
    leakFlowLoss, frictionLoss. cbn [streamPressure streamFlow].
  rewrite Hl, Hb, Hc. cbn [orb].
  split; apply Q.max_compat; try reflexivity; ring.
Qed.

(** X4. Along sensors whose segments are all at health 75 or more with no
    leak-like and no blockage-like driver, the stream loses the friction and
    nothing else: after [n] sensors its pressure is [max(0, p - 0.8 n)] and
    its flow is what it was. *)
Theorem healthy_pipeline_loses_friction_only
    (ch : gmap string Q) (det : gmap string SegDetails)
    (rng : nat -> Draws) (k : nat) (s : Stream) (l : list Sensor) :
  Forall (fun sensor =>
            75 <= health ch (segmentOf (id sensor)) /\
            isLeak det (segmentOf (id sensor)) = false /\
            isBlockage det (segmentOf (id sensor)) = false) l ->
  0 <= streamPressure s -> 0 <= streamFlow s ->
  streamPressure (snd (cascade ch det rng k s l)) ==
    Qmax 0 (streamPressure s - 0.8 * inject_Z (Z.of_nat (length l))) /\
  streamFlow (snd (cascade ch det rng k s l)) == streamFlow s.
Proof.
  intros Hall. revert k s. induction Hall as [| sensor rest (Hc & Hl & Hb) _ IH];
    intros k s Hp Hf.
  - cbn [cascade snd length]. change (inject_Z (Z.of_nat 0)) with 0.
    split; [| reflexivity]. max_cases. lra.
  - rewrite cascade_cons. cbn [snd]. rewrite snd_simulateSensor.
    destruct (healthy_node ch det (segmentOf (id sensor)) s Hc Hl Hb) as [Hp' Hf'].
    destruct (IH (S k) (applyLosses ch det (segmentOf (id sensor)) s)) as [IHp IHf].
    + apply applyLosses_nonneg.
    + apply applyLosses_nonneg.
    + rewrite IHp, IHf, Hf'. cbn [length]. rewrite Nat2Z.inj_succ. unfold Z.succ.
      rewrite inject_Z_plus. change (inject_Z 1) with 1.
      set (n := inject_Z (Z.of_nat (length rest))).
      assert (Hn : 0 <= n).
      { unfold n. change 0 with (inject_Z 0). rewrite <- Zle_Qle. lia. }
      clearbody n. revert Hp'. generalize (streamPressure (applyLosses ch det (segmentOf (id sensor)) s)).
      intros p' Hp'. split; [| revert Hf; max_cases; lra].
      revert Hp'. max_cases. lra.
Qed.

Lemma healthy_pipeline_loses_friction_only_witness :
  Forall (fun sensor =>
            75 <= health INITIAL_HEALTH (segmentOf (id sensor)) /\
            isLeak ∅ (segmentOf (id sensor)) = false /\
            isBlockage ∅ (segmentOf (id sensor)) = false) INITIAL_SENSORS /\
  0 <= streamPressure SOURCE /\ 0 <= streamFlow SOURCE /\
  streamPressure (snd (cascade INITIAL_HEALTH ∅ (fun _ => calm) 0 SOURCE INITIAL_SENSORS)) ==
    Qmax 0 (streamPressure SOURCE - 0.8 * inject_Z (Z.of_nat (length INITIAL_SENSORS))).
Proof.
  assert (H1 : Forall (fun sensor =>
            75 <= health INITIAL_HEALTH (segmentOf (id sensor)) /\
            isLeak ∅ (segmentOf (id sensor)) = false /\
            isBlockage ∅ (segmentOf (id sensor)) = false) INITIAL_SENSORS).
  { repeat constructor; vm_compute; discriminate. }
  assert (H2 : 0 <= streamPressure SOURCE) by (vm_compute; discriminate).
  assert (H3 : 0 <= streamFlow SOURCE) by (vm_compute; discriminate).
  split; [exact H1 |]. split; [exact H2 |]. split; [exact H3 |].
  exact (proj1 (healthy_pipeline_loses_friction_only INITIAL_HEALTH ∅ (fun _ => calm) 0
                  SOURCE INITIAL_SENSORS H1 H2 H3)).
Defined.

Lemma node_flow_bound ch det seg s :
  health ch seg <= 100 -> 0 <= streamFlow s ->
  streamFlow (applyLosses ch det seg s) <= streamFlow s.
Proof.
  intros Hh Hf. unfold applyLosses, nextFlow, JS.max0, leakFlowLoss.
  cbn [streamFlow]. rewrite damage_eq.
  destruct (isLeak det seg || isCritical ch seg); max_cases; lra.
Qed.

Lemma node_pressure_bound ch det seg s :
  health ch seg <= 100 -> isBlockage det seg = false -> 0 <= streamPressure s ->
  streamPressure (applyLosses ch det seg s) <= streamPressure s.
Proof.
  intros Hh Hb Hp. unfold applyLosses, nextPressure, JS.max0, backpressure,
    leakPressureDrop, frictionLoss.
  cbn [streamPressure]. rewrite damage_eq, Hb.
  destruct (isLeak det seg || isCritical ch seg); max_cases; lra.
Qed.

(** X5. When no segment has a score above 100, the flow of the stream never
    grows from one sensor to the next, whatever the drivers; and where no
    segment is blockage-like the pressure never grows either. *)
Theorem stream_never_grows_downstream
    (ch : gmap string Q) (det : gmap string SegDetails)
    (rng : nat -> Draws) (k : nat) (s : Stream) (l : list Sensor) :
  Forall (fun sensor => health ch (segmentOf (id sensor)) <= 100) l ->
  0 <= streamFlow s -> 0 <= streamPressure s ->
  streamFlow (snd (cascade ch det rng k s l)) <= streamFlow s /\
  (Forall (fun sensor => isBlockage det (segmentOf (id sensor)) = false) l ->
   streamPressure (snd (cascade ch det rng k s l)) <= streamPressure s).
Proof.
  intros Hall. revert k s. induction Hall as [| sensor rest Hh _ IH]; intros k s Hf Hp.
  - cbn [cascade snd]. split; [lra | intros _; lra].
  - rewrite cascade_cons. cbn [snd]. rewrite snd_simulateSensor.
    destruct (IH (S k) (applyLosses ch det (segmentOf (id sensor)) s)) as [IHf IHp];
      try apply applyLosses_nonneg.
    pose proof (node_flow_bound ch det _ s Hh Hf) as Hnf.
    split; [lra |]. intros Hnb. apply Forall_cons in Hnb as [Hb Hnb].
    pose proof (node_pressure_bound ch det _ s Hh Hb Hp) as Hnp.
    specialize (IHp Hnb). lra.
Qed.

Lemma stream_never_grows_downstream_witness :
  Forall (fun sensor => health clogHealth (segmentOf (id sensor)) <= 100) INITIAL_SENSORS /\
  0 <= streamFlow SOURCE /\ 0 <= streamPressure SOURCE /\
  streamFlow (snd (cascade clogHealth clogDetails (fun _ => calm) 0 SOURCE INITIAL_SENSORS))
    <= streamFlow SOURCE.
Proof.
  assert (H1 : Forall (fun sensor => health clogHealth (segmentOf (id sensor)) <= 100)
                 INITIAL_SENSORS) by (repeat constructor; vm_compute; discriminate).
  assert (H2 : 0 <= streamFlow SOURCE) by (vm_compute; discriminate).
  assert (H3 : 0 <= streamPressure SOURCE) by (vm_compute; discriminate).
  split; [exact H1 |]. split; [exact H2 |]. split; [exact H3 |].
  exact (proj1 (stream_never_grows_downstream clogHealth clogDetails (fun _ => calm) 0
                  SOURCE INITIAL_SENSORS H1 H2 H3)).
Defined.

(** X6. Scores are not clamped on the way in: on a leak-like segment a score
    above 100 makes the damage factor negative, so the stream gains
    [(score - 100) * 0.4] of flow instead of losing any, and, where nothing
    is clamped at zero and the segment is not blockage-like, gains
    [(score - 100) * 0.25] of pressure against the friction. *)
Theorem score_above_100_feeds_the_stream
    (ch : gmap string Q) (det : gmap string SegDetails) (seg : string) (p f : Q) :
  100 < health ch seg -> isLeak det seg = true -> 0 <= f ->
  damage ch seg < 0 /\
  nextFlow ch det seg f == f + (health ch seg - 100) * 0.4 /\
  f < nextFlow ch det seg f /\
  (isBlockage det seg = false -> 0.8 <= p ->
   nextPressure ch det seg p == p - 0.8 + (health ch seg - 100) * 0.25).
Proof.
  intros Hh Hl Hf. unfold nextFlow, nextPressure, JS.max0, backpressure, leakPressureDrop,
    leakFlowLoss, frictionLoss. rewrite damage_eq, Hl. cbn [orb].
  split; [lra |]. split; [max_cases; lra |]. split; [max_cases; lra |].
  intros Hb Hp. rewrite Hb. max_cases. lra.
Qed.

Lemma score_above_100_feeds_the_stream_witness :
  100 < health overHealth "B-C" /\ isLeak leakDetails "B-C" = true /\ 0 <= 355 /\
  355 < nextFlow overHealth leakDetails "B-C" 355.
Proof.
  assert (H1 : 100 < health overHealth "B-C") by reflexivity.
  assert (H2 : isLeak leakDetails "B-C" = true) by reflexivity.
  assert (H3 : 0 <= 355) by (vm_compute; discriminate).
  split; [exact H1 |]. split; [exact H2 |]. split; [exact H3 |].
  exact (proj1 (proj2 (proj2
    (score_above_100_feeds_the_stream overHealth leakDetails "B-C" 80 355 H1 H2 H3)))).
Defined.

(** ** Smoothing and rounding *)





(** ** The health snapshot *)

Lemma or_else_idem v : JS.or_else (Some (JS.or_else v 100)) 100 = JS.or_else v 100.
Proof.
  destruct v as [q |]; [| reflexivity].
  unfold JS.or_else, JS.truthy. destruct (Qeq_bool q 0) eqn:Hq; cbn [negb].
  - reflexivity.
  - now rewrite Hq.
Qed.

(** X8. A health message replaces the snapshot wholesale.  After it, the
    health the cascade reads for a segment is [health_score || 100] of that
    segment in the message, and 100 for a segment the message does not
    mention, whatever was stored before; the drivers read are those of the
    message; an earlier message leaves no trace; and the sensors, the
    history and the live flag are not touched. *)
Theorem snapshot_replaces_health
    (st : State) (sh : gmap string SegDetails) (earlier : option BackendData) :
  let st' := handleBackendUpdate (Some {| system_health := Some sh |}) st in
  (forall seg,
     health (healthRef st') seg =
       match sh !! seg with Some d => JS.or_else (health_score d) 100 | None => 100 end) /\
  (forall seg drv, hasDriver (detailsRef st') seg drv = hasDriver sh seg drv) /\
  segmentHealth st' = healthRef st' /\ systemHealthDetails st' = sh /\
  handleBackendUpdate (Some {| system_health := Some sh |})
    (handleBackendUpdate earlier st) = st' /\
  sensors st' = sensors st /\ history st' = history st /\
  isLive st' = isLive st /\ isLiveRef st' = isLiveRef st.
Proof.
  intros st'. split; [| split; [reflexivity | split; [reflexivity | split; [reflexivity |]]]].
  - intros seg. unfold health. cbn [st' handleBackendUpdate system_health healthRef].
    rewrite lookup_fmap. destruct (sh !! seg) as [d |]; [| reflexivity].
    cbn [fmap option_fmap option_map]. apply or_else_idem.
  - split; [| repeat split].
    unfold st', handleBackendUpdate. destruct earlier as [d |]; [| reflexivity].
    destruct (system_health d); reflexivity.
Qed.




Lemma length_pos_Q {A} (x : A) l : 0 < inject_Z (Z.of_nat (length (x :: l))).
Proof. change 0 with (inject_Z 0). rewrite <- Zlt_Qlt. cbn [length]. lia. Qed.



Lemma score_below_scoreOf d q : health_score d = Some q -> q <= scoreOf d.
Proof.
  intros Hq. unfold scoreOf, JS.or_else, JS.truthy. rewrite Hq.
  destruct (Qeq_bool q 0) eqn:Hz; cbn [negb]; [| lra].
  apply Qeq_bool_iff in Hz. lra.
Qed.

Lemma scoreOf_nonzero d q : health_score d = Some q -> ~ q == 0 -> scoreOf d = q.
Proof.
  intros Hq Hz. unfold scoreOf, JS.or_else, JS.truthy. rewrite Hq.
  destruct (Qeq_bool q 0) eqn:Hb; [| reflexivity].
  apply Qeq_bool_iff in Hb. contradiction.
Qed.

Lemma page_sum_below (l : list (string * SegDetails)) : forall a b,
  Forall (fun kv => is_Some (health_score (snd kv))) l -> a <= b ->
  exists t, fold_left addScore (map snd l) (Some a) = Some t /\
            t <= fold_left Qplus (map (fun kv => scoreOf (snd kv)) l) b.
Proof.
  induction l as [| [k d] l IH]; intros a b Hall Hab.
  - exists a. split; [reflexivity | exact Hab].
  - apply Forall_cons in Hall as [[q Hq] Hall]. cbn [map fold_left snd addScore] in *.
    rewrite Hq. apply IH; [exact Hall |].
    pose proof (score_below_scoreOf d q Hq). lra.
Qed.

Lemma page_sum_same (l : list (string * SegDetails)) : forall a,
  Forall (fun kv => exists q, health_score (snd kv) = Some q /\ ~ q == 0) l ->
  fold_left addScore (map snd l) (Some a) =
  Some (fold_left Qplus (map (fun kv => scoreOf (snd kv)) l) a).
Proof.
  induction l as [| [k d] l IH]; intros a Hall; [reflexivity |].
  apply Forall_cons in Hall as [(q & Hq & Hz) Hall]. cbn [map fold_left snd addScore] in *.
  rewrite Hq, (scoreOf_nonzero d q Hq Hz). apply IH, Hall.
Qed.

(** X10. The overall score of the health page and the system health of the
    provider are two means over the same details.  They agree before any
    message (both 100) and after a message in which every segment has a
    score other than 0.  When every score is present the page never shows
    more than the provider, since the provider counts a 0 as 100; and after
    an empty message the page shows 100 where the provider has NaN. *)
Theorem overall_score_and_system_health (st : State) (sh : gmap string SegDetails) :
  let st' := handleBackendUpdate (Some {| system_health := Some sh |}) st in
  overallScore (systemHealthDetails initial) = systemHealth initial /\
  (sh = ∅ -> overallScore (systemHealthDetails st') = Some 100 /\ systemHealth st' = None) /\
  ((forall seg d, sh !! seg = Some d -> exists q, health_score d = Some q /\ ~ q == 0) ->
   sh <> ∅ ->
   overallScore (systemHealthDetails st') = systemHealth st') /\
  ((forall seg d, sh !! seg = Some d -> is_Some (health_score d)) ->
   sh <> ∅ ->
   exists page provider,
     overallScore (systemHealthDetails st') = Some page /\
     systemHealth st' = Some provider /\ page <= provider).
Proof.
  intros st'. unfold st'.
  cbn [handleBackendUpdate system_health systemHealth systemHealthDetails].
  split; [reflexivity |]. split; [| split].
  - intros ->. unfold overallScore. rewrite map_to_list_empty. split; reflexivity.
  - intros Hall Hne. unfold overallScore.
    assert (Hin : Forall (fun kv => exists q, health_score (snd kv) = Some q /\ ~ q == 0)
                    (map_to_list sh)).
    { apply Forall_forall. intros [k v] Hkv. apply elem_of_map_to_list in Hkv.
      exact (Hall k v Hkv). }
    destruct (map_to_list sh) as [| kv l] eqn:Hl.
    { exfalso. apply Hne. now apply map_to_list_empty_iff. }
    rewrite (page_sum_same (kv :: l) 0 Hin).
    cbn [map average length]. now rewrite !length_map.
  - intros Hall Hne. unfold overallScore.
    assert (Hin : Forall (fun kv => is_Some (health_score (snd kv))) (map_to_list sh)).
    { apply Forall_forall. intros [k v] Hkv. apply elem_of_map_to_list in Hkv.
      exact (Hall k v Hkv). }
    destruct (map_to_list sh) as [| kv l] eqn:Hl.
    { exfalso. apply Hne. now apply map_to_list_empty_iff. }
    destruct (page_sum_below (kv :: l) 0 0 Hin) as (t & Ht & Hle); [lra |].
    rewrite Ht. cbn [map average length] in *. rewrite !length_map.
    eexists _, _. split; [reflexivity |]. split; [reflexivity |].
    pose proof (length_pos_Q kv l) as Hn. cbn [length] in Hn.
    apply Qle_shift_div_l; [exact Hn |].
    set (n := inject_Z (Z.of_nat (S (length l)))) in *.
    assert (Hd : t / n * n == t) by (field; lra).
    rewrite Hd. exact Hle.
Qed.

(** ** The promises of [runDiagnostics] *)

Lemma fold_timeouts l : forall rt,
  let r := fold_left (fun r t => timeoutCallback t r) l rt in
  component r = match l with [] => component rt | _ => setIsLive true (component rt) end /\
  clock r = clock rt /\ timers r = timers rt /\ promises r = promises rt /\
  settled r = settled rt ++ map started l.
Proof.
  induction l as [| t l IH]; intros rt.
  - cbn. rewrite app_nil_r. repeat split.
  - cbn [fold_left]. destruct (IH (timeoutCallback t rt)) as (Hc & Hk & Ht & Hp & Hs).
    cbv zeta. rewrite Hc, Hk, Ht, Hp, Hs. cbn [timeoutCallback component clock timers promises settled map].
    rewrite <- app_assoc. cbn [app]. repeat split. now destruct l.
Qed.

Lemma filter_split {A} (f : A -> bool) l :
  List.filter f l ++ List.filter (fun x => negb (f x)) l ≡ₚ l.
Proof.
  induction l as [| x l IH]; [reflexivity |].
  cbn [List.filter]. destruct (f x); cbn [negb app].
  - now rewrite IH.
  - rewrite <- Permutation_middle. now rewrite IH.
Qed.

Lemma elapse1_spec env rt :
  wellFormed (component rt) ->
  let now := (clock rt + 1)%N in
  let dueNow := List.filter (fun t => (due t <=? now)%N) (timers rt) in
  exists rt',
    elapse1 env rt = Some rt' /\
    wellFormed (component rt') /\
    clock rt' = now /\
    timers rt' = List.filter (fun t => negb (due t <=? now)%N) (timers rt) /\
    promises rt' = promises rt /\
    settled rt' = settled rt ++ map started dueNow /\
    isLiveRef (component rt') = isLive (component rt') /\
    isLive (component rt') =
      match dueNow with [] => isLive (component rt) | _ => true end.
Proof.
  intros Hwf now dueNow. unfold elapse1. fold now. fold dueNow.
  set (rt1 := {| component := component rt; clock := now;
                 timers := List.filter (fun t => negb (due t <=? now)%N) (timers rt);
                 promises := promises rt; settled := settled rt |}).
  destruct (fold_timeouts dueNow rt1) as (Hc & Hk & Ht & Hp & Hs).
  set (r := fold_left (fun r t => timeoutCallback t r) dueNow rt1) in *.
  assert (Hwr : wellFormed (component r)).
  { rewrite Hc. now destruct dueNow. }
  assert (Hlive : isLive (component r) =
                  match dueNow with [] => isLive (component rt) | _ => true end).
  { rewrite Hc. now destruct dueNow. }
  unfold onComponent. cbn [component clock timers promises settled].
  rewrite Hk, Ht, Hp, Hs. cbn [rt1 clock timers promises settled].
  destruct (now mod 1000 =? 0)%N.
  - destruct (intervalCallback_flags (random env now) (localTime env now)
                (syncLiveRef (component r)) Hwr) as (st' & Hi & Hl & Hlr).
    destruct (intervalCallback_wellFormed (random env now) (localTime env now)
                (syncLiveRef (component r)) Hwr) as (st'' & Hi' & Hw').
    rewrite Hi in Hi'. injection Hi' as <-.
    rewrite Hi. eexists. split; [reflexivity |].
    cbn [component clock timers promises settled].
    rewrite Hl, Hlr. cbn [syncLiveRef isLive isLiveRef].
    repeat split; first [assumption | apply Hw'].
  - eexists. split; [reflexivity |].
    cbn [component clock timers promises settled syncLiveRef isLive isLiveRef].
    repeat split; first [assumption | apply Hwr].
Qed.

Lemma accounted_elapse1 env rt rt' :
  wellFormed (component rt) -> accounted rt -> elapse1 env rt = Some rt' ->
  wellFormed (component rt') /\ accounted rt'.
Proof.
  intros Hwf (Hsync & Hdue & Hperm & Hval) He.
  destruct (elapse1_spec env rt Hwf) as (r & He' & Hw & Hk & Ht & Hp & Hs & Hsy & _).
  rewrite He in He'. injection He' as <-. split; [exact Hw |].
  unfold accounted. rewrite Hk, Ht, Hp, Hs. split; [exact Hsy |]. split; [| split].
  - apply Forall_forall. intros t Hin. apply list_elem_of_In, filter_In in Hin as [Hin Hb].
    apply negb_true_iff, N.leb_gt in Hb.
    rewrite Forall_forall in Hdue. specialize (Hdue t (proj2 (list_elem_of_In _ _) Hin)). lia.
  - rewrite map_app, <- app_assoc.
    assert (Hm : map fst (map started (List.filter (fun t => (due t <=? clock rt + 1)%N) (timers rt)))
                 = map promise (List.filter (fun t => (due t <=? clock rt + 1)%N) (timers rt))).
    { rewrite map_map. reflexivity. }
    rewrite Hm, <- map_app. rewrite <- Hperm. apply Permutation_app_head.
    apply Permutation_map, filter_split.
  - apply Forall_app. split; [exact Hval |].
    apply Forall_forall. intros pv Hin. apply list_elem_of_In, in_map_iff in Hin as (t & <- & _).
    now right.
Qed.

Lemma accounted_elapse env ms : forall rt rt',
  wellFormed (component rt) -> accounted rt -> elapse env ms rt = Some rt' ->
  wellFormed (component rt') /\ accounted rt'.
Proof.
  induction ms as [| ms IH] using N.peano_ind; intros rt rt' Hwf Hacc He.
  - injection He as <-. now split.
  - rewrite elapse_succ in He. destruct (elapse env ms rt) as [r |] eqn:Hr; [| discriminate].
    destruct (IH rt r Hwf Hacc Hr) as [Hw Ha].
    exact (accounted_elapse1 env r rt' Hw Ha He).
Qed.

Lemma seq_snoc_perm (l1 l2 : list nat) n :
  l1 ++ l2 ≡ₚ seq 0 n -> (l1 ++ [n]) ++ l2 ≡ₚ seq 0 (S n).
Proof.
  intros H. rewrite seq_S. cbn [Nat.add]. rewrite <- H.
  rewrite <- app_assoc. cbn [app]. rewrite <- Permutation_middle.
  rewrite (Permutation_app_comm (l1 ++ l2) [n]). reflexivity.
Qed.

Lemma seq_snoc_perm_r (l1 l2 : list nat) n :
  l1 ++ l2 ≡ₚ seq 0 n -> l1 ++ (l2 ++ [n]) ≡ₚ seq 0 (S n).
Proof.
  intros H. rewrite seq_S. cbn [Nat.add]. rewrite <- H. now rewrite app_assoc.
Qed.

Lemma accounted_perform env rt a rt' :
  wellFormed (component rt) -> accounted rt -> perform env rt a = Some rt' ->
  wellFormed (component rt') /\ accounted rt'.
Proof.
  intros Hwf Hacc Hp. destruct a as [ms | | b | data]; cbn [perform] in Hp.
  - exact (accounted_elapse env ms rt rt' Hwf Hacc Hp).
  - injection Hp as <-. destruct Hacc as (Hsync & Hdue & Hperm & Hval).
    unfold runDiagnostics. destruct (isLive (component rt)) eqn:Hl; cbn [fst onComponent].
    + split; [exact Hwf |]. unfold accounted, onComponent.
      cbn [component clock timers promises settled syncLiveRef setIsLive isLive isLiveRef].
      split; [reflexivity |]. split; [exact Hdue |]. split.
      * rewrite map_app. cbn [map fst]. now apply seq_snoc_perm.
      * apply Forall_app. split; [exact Hval |]. constructor; [now left | constructor].
    + split; [exact Hwf |]. unfold accounted, onComponent.
      cbn [component clock timers promises settled syncLiveRef isLive isLiveRef].
      split; [reflexivity |]. split; [| split; [| exact Hval]].
      * apply Forall_app. split; [exact Hdue |]. constructor; [cbn [due]; lia | constructor].
      * rewrite map_app. cbn [map promise]. now apply seq_snoc_perm_r.
  - injection Hp as <-. split; [exact Hwf |]. destruct Hacc as (Hsync & Hrest).
    split; [reflexivity | exact Hrest].
  - injection Hp as <-. split; [now apply wellFormed_handleBackendUpdate |].
    destruct Hacc as (Hsync & Hrest). split; [| exact Hrest].
    cbn [onComponent component]. unfold handleBackendUpdate.
    destruct data as [d |]; [| exact Hsync]. destruct (system_health d); exact Hsync.
Qed.

Lemma accounted_boot : accounted boot.
Proof. repeat split; constructor. Qed.

Lemma accounted_run env trace : forall rt,
  wellFormed (component rt) -> accounted rt ->
  exists rt', run env rt trace = Some rt' /\ wellFormed (component rt') /\ accounted rt'.
Proof.
  induction trace as [| a rest IH]; intros rt Hwf Hacc.
  - exists rt. split; [reflexivity | split; assumption].
  - destruct (perform_wellFormed env rt a Hwf) as (r & Hp & _).
    destruct (accounted_perform env rt a r Hwf Hacc Hp) as [Hw Ha].
    cbn [run]. rewrite Hp. apply IH; assumption.
Qed.

Lemma elapse_timers env ms : forall rt rt',
  wellFormed (component rt) -> elapse env ms rt = Some rt' ->
  wellFormed (component rt') /\
  clock rt' = (clock rt + ms)%N /\ promises rt' = promises rt /\
  (forall t, In t (timers rt') -> In t (timers rt)) /\
  (length (timers rt') <= length (timers rt))%nat /\
  ((length (timers rt') < length (timers rt))%nat -> isLive (component rt') = true).
Proof.
  induction ms as [| ms IH] using N.peano_ind; intros rt rt' Hwf He.
  - injection He as <-. rewrite N.add_0_r. repeat split; try apply Hwf; auto; lia.
  - rewrite elapse_succ in He. destruct (elapse env ms rt) as [r |] eqn:Hr; [| discriminate].
    destruct (IH rt r Hwf Hr) as (Hw & Hk & Hp & Hsub & Hlen & Hlive).
    destruct (elapse1_spec env r Hw) as (r' & He' & Hw' & Hk' & Ht' & Hp' & _ & _ & Hl').
    rewrite He in He'. injection He' as <-.
    pose proof (filter_split (fun t => (due t <=? clock r + 1)%N) (timers r)) as Hsplit.
    apply Permutation_length in Hsplit. rewrite length_app, <- Ht' in Hsplit.
    split; [exact Hw' |]. split; [lia |]. split; [congruence |]. split; [| split].
    + intros t Hin. apply Hsub. rewrite Ht' in Hin. now apply filter_In in Hin.
    + lia.
    + intros Hlt. rewrite Hl'.
      destruct (List.filter (fun t => (due t <=? clock r + 1)%N) (timers r)) as [| t0 l0];
        [| reflexivity].
      cbn [length] in Hsplit. apply Hlive. lia.
Qed.

(** X11. In every state the provider can reach: the ref read by the interval
    agrees with the live flag; each promise [runDiagnostics] has returned is
    either resolved or awaited by a pending timeout that falls due within
    the next 6000 ms, and never both nor twice; and a promise is resolved
    with "paused" or with "started" only. *)
Theorem promises_are_accounted_for (env : Env) (trace : list Action) :
  exists rt,
    run env boot trace = Some rt /\
    isLiveRef (component rt) = isLive (component rt) /\
    (forall p, (p < promises rt)%nat ->
       (exists v, In (p, v) (settled rt)) \/
       (exists t, In t (timers rt) /\ promise t = p /\
                  (clock rt < due t <= clock rt + 6000)%N)) /\
    NoDup (map fst (settled rt) ++ map promise (timers rt)) /\
    (forall p v, In (p, v) (settled rt) ->
       (p < promises rt)%nat /\ (v = "paused" \/ v = "started")).
Proof.
  destruct (accounted_run env trace boot wellFormed_initial accounted_boot)
    as (rt & Hrun & _ & Hsync & Hdue & Hperm & Hval).
  exists rt. split; [exact Hrun |]. split; [exact Hsync |]. split; [| split].
  - intros p Hp.
    assert (Hin : In p (map fst (settled rt) ++ map promise (timers rt))).
    { apply list_elem_of_In. rewrite Hperm. apply list_elem_of_In, in_seq. lia. }
    apply in_app_or in Hin as [Hin | Hin].
    + left. apply in_map_iff in Hin as ([p' v] & <- & Hin). eauto.
    + right. apply in_map_iff in Hin as (t & <- & Hin). exists t.
      split; [exact Hin |]. split; [reflexivity |].
      rewrite Forall_forall in Hdue. apply Hdue, list_elem_of_In, Hin.
  - rewrite Hperm. apply NoDup_ListNoDup, seq_NoDup.
  - intros p v Hin. split.
    + assert (Hp : In p (seq 0 (promises rt))).
      { apply list_elem_of_In. rewrite <- Hperm. apply list_elem_of_In, in_or_app. left.
        apply in_map_iff. exists (p, v). now split. }
      apply in_seq in Hp. lia.
    + rewrite Forall_forall in Hval. apply (Hval (p, v)), list_elem_of_In, Hin.
Qed.

(** X12. From any state the provider can reach, 6000 ms without a further
    call leave no timeout pending: every promise returned so far is
    resolved, and if a resume was pending the provider is live. *)
Theorem pending_resumes_resolve_within_6000 (env : Env) (trace : list Action) :
  exists rt rt',
    run env boot trace = Some rt /\
    elapse env 6000 rt = Some rt' /\
    timers rt' = [] /\ promises rt' = promises rt /\
    clock rt' = (clock rt + 6000)%N /\
    (forall p, (p < promises rt)%nat -> exists v, In (p, v) (settled rt')) /\
    (timers rt <> [] -> isLive (component rt') = true).
Proof.
  destruct (accounted_run env trace boot wellFormed_initial accounted_boot)
    as (rt & Hrun & Hwf & Hacc).
  destruct (elapse_wellFormed env 6000 rt Hwf) as (rt' & He & _).
  destruct (accounted_elapse env 6000 rt rt' Hwf Hacc He) as (Hwf' & Hsync' & Hdue' & Hperm' & _).
  destruct (elapse_timers env 6000 rt rt' Hwf He) as (_ & Hk & Hp & Hsub & _ & Hlive).
  destruct Hacc as (_ & Hdue & _ & _).
  assert (Hnil : timers rt' = []).
  { destruct (timers rt') as [| t l] eqn:Ht; [reflexivity |]. exfalso.
    assert (Hin : In t (timers rt)) by (apply Hsub; now left).
    rewrite Forall_forall in Hdue. specialize (Hdue t (proj2 (list_elem_of_In _ _) Hin)).
    apply Forall_cons in Hdue' as [Hd _]. lia. }
  exists rt, rt'. split; [exact Hrun |]. split; [exact He |]. split; [exact Hnil |].
  split; [exact Hp |]. split; [exact Hk |]. split.
  - intros p Hlt. rewrite Hnil, app_nil_r, Hp in Hperm'.
    assert (Hin : In p (map fst (settled rt'))).
    { apply list_elem_of_In. rewrite Hperm'. apply list_elem_of_In, in_seq. lia. }
    apply in_map_iff in Hin as ([p' v] & <- & Hin). eauto.
  - intros Hne. apply Hlive. rewrite Hnil. destruct (timers rt); [congruence | cbn; lia].
Qed.

(** ** The pages *)

Example split_sensor : splitOn "_" "SENSOR_A" = ["SENSOR"; "A"]%string.
Proof. reflexivity. Qed.
Example split_trailing : splitOn "_" "a_" = ["a"; ""]%string.
Proof. reflexivity. Qed.
Example suffix_missing : idSuffix "SENSOR" = "undefined"%string.
Proof. reflexivity. Qed.

(** X13. [getSegmentColor] of the pipeline schematic tests [score < 90]
    before [score < 75]: it returns amber for every score below 90, the
    critical ones included, blue from 90 on, and never the red of its second
    test. *)
Theorem getSegmentColor_is_never_red
    (segmentHealth0 : gmap string Q) (uId downId : string) :
  let score := JS.or_else (segmentHealth0 !! segKey uId downId) 100 in
  getSegmentColor segmentHealth0 uId downId <> "#ef4444"%string /\
  (score < 90 -> getSegmentColor segmentHealth0 uId downId = "#f59e0b"%string) /\
  (90 <= score -> getSegmentColor segmentHealth0 uId downId = "#3b82f6"%string).
Proof.
  intros score. unfold getSegmentColor. fold score.
  destruct (Qle_bool 90 score) eqn:H90; cbn [negb].
  - apply Qle_bool_iff in H90.
    assert (H75 : Qle_bool 75 score = true) by (apply Qle_bool_iff; lra).
    rewrite H75. cbn [negb]. split; [discriminate |]. split; [lra | reflexivity].
  - split; [discriminate |]. split; [reflexivity |].
    intros Hc. apply Qle_bool_iff in Hc. congruence.
Qed.

Section StateInvariant.

Variable P : State -> Prop.
Hypothesis P_setIsLive : forall b st, P st -> P (setIsLive b st).
Hypothesis P_syncLiveRef : forall st, P st -> P (syncLiveRef st).
Hypothesis P_message : forall data st, P st -> P (handleBackendUpdate data st).
Hypothesis P_tick : forall rng time st st',
  P st -> simulateFluidMetrics rng time st = Some st' -> P st'.

Lemma invariant_timeouts l : forall rt,
  P (component rt) -> P (component (fold_left (fun r t => timeoutCallback t r) l rt)).
Proof.
  induction l as [| t l IH]; intros rt H; [exact H |].
  cbn [fold_left]. apply IH. cbn [timeoutCallback component]. now apply P_setIsLive.
Qed.

Lemma invariant_elapse1 env rt rt' :
  P (component rt) -> elapse1 env rt = Some rt' -> P (component rt').
Proof.
  intros H. unfold elapse1.
  set (rt2 := onComponent syncLiveRef _).
  assert (H2 : P (component rt2)).
  { unfold rt2, onComponent. cbn [component]. apply P_syncLiveRef, invariant_timeouts. exact H. }
  destruct (_ =? 0)%N.
  - unfold intervalCallback. destruct (isLiveRef (component rt2)).
    + destruct (simulateFluidMetrics _ _ (component rt2)) as [st |] eqn:Hs; [| discriminate].
      intros [= <-]. cbn [onComponent component]. exact (P_tick _ _ _ _ H2 Hs).
    + intros [= <-]. exact H2.
  - intros [= <-]. exact H2.
Qed.

Lemma invariant_elapse env ms : forall rt rt',
  P (component rt) -> elapse env ms rt = Some rt' -> P (component rt').
Proof.
  induction ms as [| ms IH] using N.peano_ind; intros rt rt' H He.
  - now injection He as <-.
  - rewrite elapse_succ in He. destruct (elapse env ms rt) as [r |] eqn:Hr; [| discriminate].
    exact (invariant_elapse1 env r rt' (IH rt r H Hr) He).
Qed.

Lemma invariant_run env trace : forall rt rt',
  P (component rt) -> run env rt trace = Some rt' -> P (component rt').
Proof.
  induction trace as [| a rest IH]; intros rt rt' H Hr.
  - now injection Hr as <-.
  - cbn [run] in Hr. destruct (perform env rt a) as [r |] eqn:Hp; [| discriminate].
    apply (IH r rt'); [| exact Hr].
    destruct a as [ms | | b | data]; cbn [perform] in Hp.
    + exact (invariant_elapse env ms rt r H Hp).
    + injection Hp as <-. unfold runDiagnostics.
      destruct (isLive (component rt)); cbn [fst onComponent component].
      * now apply P_syncLiveRef, P_setIsLive.
      * now apply P_syncLiveRef.
    + injection Hp as <-. cbn [onComponent component]. now apply P_syncLiveRef, P_setIsLive.
    + injection Hp as <-. cbn [onComponent component]. now apply P_message.
Qed.

End StateInvariant.

Lemma mirrored_run env trace rt :
  run env boot trace = Some rt -> mirrored (component rt).
Proof.
  apply (invariant_run mirrored).
  - intros b st H. exact H.
  - intros st H. exact H.
  - intros data st H. unfold handleBackendUpdate.
    destruct data as [d |]; [| exact H]. destruct (system_health d); [| exact H].
    split; reflexivity.
  - intros rng time st st' H Hs. unfold simulateFluidMetrics in Hs.
    destruct (updateHistory _ _ _); [| discriminate]. injection Hs as <-. exact H.
  - split; reflexivity.
Qed.

Lemma connector_color_spec (sh : gmap string Q) up down :
  connectorStatusColor sh up down =
  statusColorOf (spec_status (health sh (segKey (id up) (id down)))).
Proof.
  unfold connectorStatusColor. fold (health sh (segKey (id up) (id down))).
  set (h := health sh _). unfold spec_status.
  destruct (Qlt_le_dec h 75) as [Hc | Hc].
  - assert (H75 : Qle_bool 75 h = false).
    { apply not_true_iff_false. rewrite Qle_bool_iff. lra. }
    now rewrite H75.
  - apply Qle_bool_iff in Hc as H75. rewrite H75. cbn [negb].
    destruct (Qlt_le_dec h 90) as [Hw | Hw].
    + assert (H90 : Qle_bool 90 h = false).
      { apply not_true_iff_false. rewrite Qle_bool_iff. lra. }
      now rewrite H90.
    + apply Qle_bool_iff in Hw as H90. now rewrite H90.
Qed.

Lemma critical_count_spec (l : list Sensor) :
  criticalSensors l =
  length (List.filter (fun s => match s with critical => true | _ => false end)
            (map status l)).
Proof.
  unfold criticalSensors. induction l as [| x l IH]; [reflexivity |].
  cbn [List.filter map]. destruct (status x); cbn [length]; now rewrite ?IH.
Qed.

(** The sensors after a tick of a well-formed state, one by one. *)
Lemma tick_topology rng time st st' :
  wellFormed st -> simulateFluidMetrics rng time st = Some st' ->
  exists a b c d e,
    sensors st' = [a; b; c; d; e] /\
    map id [a; b; c; d; e] = map id INITIAL_SENSORS /\
    map status [a; b; c; d; e] =
      map (fun seg => spec_status (health (healthRef st) seg))
          ["A-B"; "B-C"; "C-D"; "D-E"; "D-E"]%string /\
    healthRef st' = healthRef st /\ segmentHealth st' = segmentHealth st /\
    systemHealth st' = systemHealth st.
Proof.
  intros Hwf Hs.
  destruct (simulateFluidMetrics_wellFormed rng time st Hwf)
    as (st1 & s0 & Hs1 & Hwf' & _ & _ & Hsens & _ & _ & _ & Href & _).
  rewrite Hs in Hs1. injection Hs1 as <-.
  pose proof (cascade_status (healthRef st) (detailsRef st) rng 0 SOURCE (sensors st)) as Hst.
  rewrite <- Hsens in Hst.
  assert (Hmap : map (fun sensor => spec_status (health (healthRef st) (segmentOf (id sensor))))
                   (sensors st) =
                 map (fun i => spec_status (health (healthRef st) (segmentOf i)))
                   (map id (sensors st))) by now rewrite map_map.
  rewrite Hmap in Hst. destruct Hwf as [Hid _]. rewrite Hid in Hst.
  destruct Hwf' as [Hid' _].
  assert (Hfr : segmentHealth st' = segmentHealth st /\ systemHealth st' = systemHealth st).
  { unfold simulateFluidMetrics in Hs. destruct (updateHistory _ _ _); [| discriminate].
    injection Hs as <-. split; reflexivity. }
  destruct (sensors st') as [| a [| b [| c [| d [| e [| f l]]]]]]; try discriminate.
  exists a, b, c, d, e. split; [reflexivity |]. split; [exact Hid' |].
  split; [exact Hst |]. split; [exact Href |]. exact Hfr.
Qed.

(** X14. In every state the provider can reach, the health shown is the
    health simulated, and right after a tick the pages and the engine agree
    on the segments: the key a page builds from two neighbouring sensor ids
    is the segment the engine gave the upstream sensor, and the connector of
    the topology view is red, amber or blue exactly as that sensor is
    critical, warning or normal. *)
Theorem connectors_show_the_status_upstream (env : Env) (trace : list Action) :
  exists rt,
    run env boot trace = Some rt /\
    segmentHealth (component rt) = healthRef (component rt) /\
    forall rng time,
      exists st',
        simulateFluidMetrics rng time (component rt) = Some st' /\
        forall i up down,
          sensors st' !! i = Some up -> sensors st' !! S i = Some down ->
          segKey (id up) (id down) = segmentOf (id up) /\
          connectorStatusColor (segmentHealth st') up down = statusColorOf (status up).
Proof.
  destruct (run_wellFormed env trace boot wellFormed_initial) as (rt & Hrun & Hwf).
  destruct (mirrored_run env trace rt Hrun) as [Hm _].
  exists rt. split; [exact Hrun |]. split; [exact Hm |]. intros rng time.
  destruct (simulateFluidMetrics_wellFormed rng time _ Hwf) as (st' & s0 & Hs & _).
  exists st'. split; [exact Hs |].
  destruct (tick_topology rng time _ st' Hwf Hs)
    as (a & b & c & d & e & Hl & Hid & Hst & Href & Hsh & _).
  rewrite Hl, Hsh, Hm. cbn [map] in Hid, Hst.
  injection Hid as Ha Hb Hc Hd He. injection Hst as Sa Sb Sc Sd Se.
  intros i up down Hup Hdown.
  destruct i as [| [| [| [| i]]]]; cbn in Hup, Hdown; try discriminate;
    injection Hup as <-; injection Hdown as <-;
    rewrite connector_color_spec;
    repeat match goal with H : id _ = _ |- _ => rewrite H end;
    repeat match goal with H : status _ = _ |- _ => rewrite H end;
    split; reflexivity.
Qed.

(** X15. Right after a tick in a reachable state, the number of critical
    sensors on the dashboard counts the segments whose health is below 75,
    with D-E counted twice (SENSOR_D and SENSOR_E both read it); a live
    dashboard shows "Critical Alert" exactly when some segment is below 75,
    and a paused one shows "Diagnostics Paused" whatever the sensors say. *)
Theorem critical_sensors_count_segments (env : Env) (trace : list Action) :
  exists rt,
    run env boot trace = Some rt /\
    forall rng time,
      exists st',
        simulateFluidMetrics rng time (component rt) = Some st' /\
        let crit seg := if isCritical (healthRef (component rt)) seg then 1%nat else 0%nat in
        criticalSensors (sensors st') =
          (crit "A-B" + crit "B-C" + crit "C-D" + 2 * crit "D-E")%nat /\
        (systemStatus true (sensors st') (systemHealth st') = "Critical Alert"%string <->
         exists seg, In seg ["A-B"; "B-C"; "C-D"; "D-E"]%string /\
                     health (healthRef (component rt)) seg < 75) /\
        systemStatus false (sensors st') (systemHealth st') = "Diagnostics Paused"%string.
Proof.
  destruct (run_wellFormed env trace boot wellFormed_initial) as (rt & Hrun & Hwf).
  exists rt. split; [exact Hrun |]. intros rng time.
  destruct (simulateFluidMetrics_wellFormed rng time _ Hwf) as (st' & s0 & Hs & _).
  exists st'. split; [exact Hs |].
  destruct (tick_topology rng time _ st' Hwf Hs)
    as (a & b & c & d & e & Hl & _ & Hst & _).
  set (ch := healthRef (component rt)) in *.
  assert (Hcount : criticalSensors (sensors st') =
            ((if isCritical ch "A-B" then 1 else 0) + (if isCritical ch "B-C" then 1 else 0) +
             (if isCritical ch "C-D" then 1 else 0) +
             2 * (if isCritical ch "D-E" then 1 else 0))%nat).
  { rewrite critical_count_spec, Hl, Hst. cbn [map].
    rewrite <- !nodeStatus_spec. unfold nodeStatus.
    destruct (isCritical ch "A-B"), (isCritical ch "B-C"), (isCritical ch "C-D"),
      (isCritical ch "D-E"), (isWarning ch "A-B"), (isWarning ch "B-C"),
      (isWarning ch "C-D"), (isWarning ch "D-E"); reflexivity. }
  cbv zeta. split; [exact Hcount |]. split; [| reflexivity].
  unfold systemStatus. cbn [negb]. rewrite Hcount. split.
  - intros Hcrit.
    destruct (isCritical ch "A-B") eqn:E1;
      [exists "A-B"%string; split; [cbn; tauto | now apply isCritical_true] |].
    destruct (isCritical ch "B-C") eqn:E2;
      [exists "B-C"%string; split; [cbn; tauto | now apply isCritical_true] |].
    destruct (isCritical ch "C-D") eqn:E3;
      [exists "C-D"%string; split; [cbn; tauto | now apply isCritical_true] |].
    destruct (isCritical ch "D-E") eqn:E4;
      [exists "D-E"%string; split; [cbn; tauto | now apply isCritical_true] |].
    cbn in Hcrit. destruct (systemHealth st') as [h |]; [destruct (negb _) |]; discriminate.
  - intros (seg & Hin & Hlt). apply isCritical_true in Hlt.
    cbn [In] in Hin. destruct Hin as [<- | [<- | [<- | [<- | []]]]]; rewrite Hlt;
      destruct (isCritical ch "A-B"), (isCritical ch "B-C"), (isCritical ch "C-D"),
        (isCritical ch "D-E"); reflexivity.
Qed.

(** ** Driver names *)


Lemma append_empty b : ("" ++ b)%string = b.
Proof. reflexivity. Qed.








(** ** The investigation report *)

Example day_labels : dayLabel 0 = "Day 1"%string /\ dayLabel 29 = "Day 30"%string.
Proof. split; reflexivity. Qed.

Lemma trends_length draws : length (trends draws) = 30%nat.
Proof. unfold trends. now rewrite length_map, length_seq. Qed.

Lemma trends_nth draws i :
  (i < 30)%nat ->
  nth_error (trends draws) i =
  Some {| day := dayLabel i;
          t_pressure := 85 - inject_Z (Z.of_nat i) * 0.5 - fst (draws i) * 2;
          t_corrosion := 0.04 + inject_Z (Z.of_nat i) * 0.004 + snd (draws i) * 0.001 |}.
Proof.
  intros Hi. unfold trends.
  rewrite nth_error_map, nth_error_seq.
  destruct (Nat.ltb_spec i 30); [reflexivity | lia].
Qed.

(** X17. [getInvestigationData] answers [null] for every segment but C-D.
    For C-D its trend chart has 30 points, "Day 1" to "Day 30"; whatever the
    random draws, the pressure of day [i + 1] lies between [85 - 0.5 i - 2]
    and [85 - 0.5 i], both included (so between 68.5 and 85), and the
    corrosion rate rises strictly from each day to the next. *)
Theorem investigation_trends
    (segmentId : string) (draws : nat -> Q * Q) :
  (forall i, 0 <= fst (draws i) < 1 /\ 0 <= snd (draws i) < 1) ->
  (segmentId <> "C-D"%string -> getInvestigationData segmentId draws = None) /\
  exists report,
    getInvestigationData "C-D" draws = Some report /\
    length (charts_trends report) = 30%nat /\
    map day (charts_trends report) = map dayLabel (seq 0 30) /\
    (forall i p, nth_error (charts_trends report) i = Some p ->
       85 - inject_Z (Z.of_nat i) * 0.5 - 2 <= t_pressure p
         <= 85 - inject_Z (Z.of_nat i) * 0.5 /\
       68.5 <= t_pressure p <= 85) /\
    (forall i p q, nth_error (charts_trends report) i = Some p ->
       nth_error (charts_trends report) (S i) = Some q ->
       t_corrosion p < t_corrosion q).
Proof.
  intros Hdraws. split.
  - intros Hne. unfold getInvestigationData.
    destruct (String.eqb_spec segmentId "C-D"); [contradiction | reflexivity].
  - eexists. split; [reflexivity |]. cbn [charts_trends].
    split; [unfold trends; now rewrite length_map, length_seq |].
    split; [unfold trends; now rewrite map_map |]. split.
    + intros i p Hp.
      assert (Hi : (i < 30)%nat).
      { rewrite <- (trends_length draws). apply nth_error_Some. rewrite Hp. discriminate. }
      rewrite (trends_nth draws i Hi) in Hp. injection Hp as <-. cbn [t_pressure].
      destruct (Hdraws i) as [[H0 H1] _].
      assert (Hz : 0 <= inject_Z (Z.of_nat i) <= 29).
      { change 0 with (inject_Z 0). change 29 with (inject_Z 29).
        rewrite <- !Zle_Qle. lia. }
      split; split; lra.
    + intros i p q Hp Hq.
      assert (Hi : (S i < 30)%nat).
      { rewrite <- (trends_length draws). apply nth_error_Some. rewrite Hq. discriminate. }
      rewrite (trends_nth draws i) in Hp by lia. rewrite (trends_nth draws (S i) Hi) in Hq.
      injection Hp as <-. injection Hq as <-. cbn [t_corrosion].
      destruct (Hdraws i) as [_ [H0 H1]]. destruct (Hdraws (S i)) as [_ [H0' H1']].
      rewrite Nat2Z.inj_succ. unfold Z.succ. rewrite inject_Z_plus.
      change (inject_Z 1) with 1. lra.
Qed.

Lemma investigation_trends_witness :
  (forall i, 0 <= fst ((fun _ : nat => (0.5, 0.5)) i) < 1 /\
             0 <= snd ((fun _ : nat => (0.5, 0.5)) i) < 1) /\
  exists report,
    getInvestigationData "C-D" (fun _ => (0.5, 0.5)) = Some report /\
    length (charts_trends report) = 30%nat.
Proof.
  assert (H : forall i : nat, 0 <= fst ((fun _ : nat => (0.5, 0.5)) i) < 1 /\
                        0 <= snd ((fun _ : nat => (0.5, 0.5)) i) < 1).
  { intros i. cbn. repeat split; vm_compute; congruence. }
  split; [exact H |].
  destruct (proj2 (investigation_trends "C-D" (fun _ => (0.5, 0.5)) H))
    as (report & Hr & Hl & _).
  exists report. split; [exact Hr | exact Hl].
Defined.

(** * The HTTP client and the auth context *)

Import Http AuthContext.

(** ** The local storage *)

Lemma getItem_setItem_eq k v w : getItem k (setItem k v w) = Some (str v).
Proof. unfold getItem, setItem. cbn [storage]. apply lookup_insert_eq. Qed.

Lemma getItem_setItem_ne k k' v w : k <> k' -> getItem k' (setItem k v w) = getItem k' w.
Proof. intros H. unfold getItem, setItem. cbn [storage]. now apply lookup_insert_ne. Qed.

Lemma getItem_removeItem_eq k w : getItem k (removeItem k w) = None.
Proof. unfold getItem, removeItem. cbn [storage]. apply lookup_delete_eq. Qed.

Lemma getItem_removeItem_ne k k' w : k <> k' -> getItem k' (removeItem k w) = getItem k' w.
Proof. intros H. unfold getItem, removeItem. cbn [storage]. now apply lookup_delete_ne. Qed.

(** ** The interceptors *)

Lemma onRequest_fields w config :
  _retry (onRequest w config) = _retry config /\ url (onRequest w config) = url config /\
  method (onRequest w config) = method config /\ body (onRequest w config) = body config.
Proof. unfold onRequest. destruct (present _); repeat split. Qed.

Lemma onRequest_authorization w config :
  authorization (onRequest w config) =
  match present (getItem "access_token" w) with
  | Some token => Some ("Bearer " ++ token)%string
  | None => authorization config
  end.
Proof. unfold onRequest. now destruct (present _). Qed.

Lemma present_str v : present (Some v) = None \/ present (Some v) = Some v.
Proof. unfold present. destruct (String.eqb v ""); auto. Qed.

Lemma apiFuel_retried n b w config :
  _retry config = true -> apiFuel (S n) b w config = Some (dispatch b w config).
Proof.
  intros Hr. cbn [apiFuel]. unfold attempt. destruct (dispatch b w config) as [w1 reply].
  destruct reply as [data | status]; [reflexivity |].
  rewrite Hr, andb_false_r. reflexivity.
Qed.

(** What [api] does, case by case on the answer to the first submission. *)
Lemma api_unfold b w config :
  api b w config =
  let w1 := fst (dispatch b w config) in
  match respond b (length (sent w)) (onRequest w config) with
  | Success data => (w1, Success data)
  | Failure status =>
      if is401 status && negb (_retry config) then
        match present (getItem "refresh_token" w) with
        | Some refreshToken =>
            let w2 := {| storage := storage w1; href := href w1; sent := sent w1;
                         refreshCalls := refreshCalls w1 ++ [refreshToken] |} in
            match refreshEndpoint b (length (refreshCalls w)) refreshToken with
            | Some data =>
                dispatch b
                  (setItem "refresh_token" (refresh_token data)
                     (setItem "access_token" (access_token data) w2))
                  (withAuthorization ("Bearer " ++ str (access_token data))%string true config)
            | None =>
                (redirect "/login"
                   (removeItem "refresh_token" (removeItem "access_token" w2)),
                 Failure status)
            end
        | None => (redirect "/login" w1, Failure status)
        end
      else (w1, Failure status)
  end.
Proof.
  unfold api. change (apiFuel 2 b w config) with (attempt (apiFuel 1 b) b w config).
  unfold attempt.
  change (dispatch b w config) with
    (fst (dispatch b w config), respond b (length (sent w)) (onRequest w config)).
  cbv zeta. cbn [fst snd].
  destruct (respond b (length (sent w)) (onRequest w config)) as [data | status];
    [reflexivity |].
  destruct (is401 status && negb (_retry config)); [| reflexivity].
  change (getItem "refresh_token" (fst (dispatch b w config)))
    with (getItem "refresh_token" w).
  destruct (present (getItem "refresh_token" w)) as [rt |]; [| reflexivity].
  change (refreshCalls (fst (dispatch b w config))) with (refreshCalls w).
  destruct (refreshEndpoint b (length (refreshCalls w)) rt) as [data |]; [| reflexivity].
  now rewrite apiFuel_retried.
Qed.

Lemma api_sent b w config :
  exists extra, sent (fst (api b w config)) = sent w ++ onRequest w config :: extra /\
                Forall (fun again => url again = url config) extra.
Proof.
  rewrite api_unfold. cbv zeta.
  destruct (respond b (length (sent w)) (onRequest w config)) as [data | status];
    [exists []; split; [reflexivity | constructor] |].
  destruct (is401 status && negb (_retry config));
    [| exists []; split; [reflexivity | constructor]].
  destruct (present (getItem "refresh_token" w)) as [rt |];
    [| exists []; split; [reflexivity | constructor]].
  destruct (refreshEndpoint b (length (refreshCalls w)) rt) as [data |];
    [| exists []; split; [reflexivity | constructor]].
  eexists [_]. split; [cbn; rewrite <- app_assoc; reflexivity |].
  constructor; [| constructor].
  now destruct (onRequest_fields
    (setItem "refresh_token" (refresh_token data)
       (setItem "access_token" (access_token data)
          {| storage := storage w; href := href w;
             sent := sent w ++ [onRequest w config];
             refreshCalls := refreshCalls w ++ [rt] |}))
    (withAuthorization ("Bearer " ++ str (access_token data)) true config))
    as (_ & -> & _).
Qed.

(** X18. One call of [api] submits the request once or twice, never more:
    two rounds of fuel always suffice.  A second submission happens only
    after a successful refresh; it is the same request marked [_retry],
    carrying the refreshed access token, and both refreshed tokens are in
    the local storage.  At most one refresh is asked for, and a request
    that is already marked [_retry] is submitted exactly once. *)
Theorem api_submits_at_most_twice
    (b : Backend) (w : World) (config : Request) (n : nat) :
  apiFuel (2 + n) b w config = Some (api b w config) /\
  (exists extra,
     sent (fst (api b w config)) = sent w ++ onRequest w config :: extra /\
     (length extra <= 1)%nat /\
     (forall again, In again extra ->
        _retry again = true /\ url again = url config /\ method again = method config /\
        body again = body config /\
        exists data,
          refreshEndpoint b (length (refreshCalls w))
            (str (present (getItem "refresh_token" w))) = Some data /\
          authorization again = Some ("Bearer " ++ str (access_token data))%string /\
          getItem "access_token" (fst (api b w config)) = Some (str (access_token data)) /\
          getItem "refresh_token" (fst (api b w config)) = Some (str (refresh_token data)))) /\
  (length (refreshCalls (fst (api b w config))) <= length (refreshCalls w) + 1)%nat /\
  (_retry config = true -> api b w config = dispatch b w config).
Proof.
  split.
  - unfold api.
    change (apiFuel 2 b w config) with (attempt (apiFuel 1 b) b w config).
    change (apiFuel (2 + n) b w config) with (attempt (apiFuel (S n) b) b w config).
    unfold attempt.
    destruct (dispatch b w config) as [w1 reply].
    destruct reply as [data | status]; [reflexivity |].
    destruct (is401 status && negb (_retry config)); [| reflexivity].
    destruct (present (getItem "refresh_token" w1)) as [rt |]; [| reflexivity].
    destruct (refreshEndpoint b (length (refreshCalls w1)) rt) as [data |]; [| reflexivity].
    now rewrite !apiFuel_retried.
  - rewrite api_unfold. cbv zeta.
    assert (Hnone : forall (w' : World) (r : Reply) (k : nat),
              sent w' = sent w ++ [onRequest w config] ->
              (length (refreshCalls w') <= length (refreshCalls w) + 1)%nat ->
              (_retry config = true -> (w', r) = dispatch b w config) ->
              (exists extra,
                 sent (fst (w', r)) = sent w ++ onRequest w config :: extra /\
                 (length extra <= 1)%nat /\
                 (forall again, In again extra ->
                    _retry again = true /\ url again = url config /\
                    method again = method config /\ body again = body config /\
                    exists data,
                      refreshEndpoint b (length (refreshCalls w))
                        (str (present (getItem "refresh_token" w))) = Some data /\
                      authorization again = Some ("Bearer " ++ str (access_token data))%string /\
                      getItem "access_token" (fst (w', r)) = Some (str (access_token data)) /\
                      getItem "refresh_token" (fst (w', r)) = Some (str (refresh_token data)))) /\
              (length (refreshCalls (fst (w', r))) <= length (refreshCalls w) + 1)%nat /\
              (_retry config = true -> (w', r) = dispatch b w config)).
    { intros w' r _ Hs Hc Hd. split; [| split; [exact Hc | exact Hd]].
      exists []. split; [exact Hs |]. split; [cbn; lia |]. intros a []. }
    destruct (respond b (length (sent w)) (onRequest w config)) as [data | status] eqn:Hfirst.
    { apply (Hnone _ _ 0%nat); [reflexivity | cbn; lia |]. intros _. unfold dispatch.
      now rewrite Hfirst. }
    destruct (_retry config) eqn:Hr.
    { rewrite andb_false_r. apply (Hnone _ _ 0%nat); [reflexivity | cbn; lia |].
      intros _. unfold dispatch. now rewrite Hfirst. }
    rewrite andb_true_r. destruct (is401 status).
    2:{ apply (Hnone _ _ 0%nat); [reflexivity | cbn; lia | discriminate]. }
    destruct (present (getItem "refresh_token" w)) as [rt |] eqn:Hrt.
    2:{ apply (Hnone _ _ 0%nat); [reflexivity | cbn; lia | discriminate]. }
    destruct (refreshEndpoint b (length (refreshCalls w)) rt) as [data |] eqn:Href.
    2:{ apply (Hnone _ _ 0%nat); [reflexivity | cbn; rewrite length_app; cbn; lia | discriminate]. }
    clear Hnone.
    split; [| split; [cbn; rewrite length_app; cbn; lia | discriminate]].
    set (w2 := {| storage := storage (fst (dispatch b w config));
                  href := href (fst (dispatch b w config));
                  sent := sent (fst (dispatch b w config));
                  refreshCalls := refreshCalls (fst (dispatch b w config)) ++ [rt] |}).
    set (w3 := setItem "refresh_token" (refresh_token data)
                 (setItem "access_token" (access_token data) w2)).
    set (cfg := withAuthorization ("Bearer " ++ str (access_token data))%string true config).
    assert (Ha : getItem "access_token" w3 = Some (str (access_token data))).
    { unfold w3. rewrite getItem_setItem_ne by discriminate. apply getItem_setItem_eq. }
    assert (Hrf : getItem "refresh_token" w3 = Some (str (refresh_token data))).
    { unfold w3. apply getItem_setItem_eq. }
    exists [onRequest w3 cfg]. split; [cbn; rewrite <- app_assoc; reflexivity |].
    split; [cbn; lia |]. intros again [<- | []].
    destruct (onRequest_fields w3 cfg) as (H1 & H2 & H3 & H4).
    rewrite H1, H2, H3, H4. repeat split. exists data.
    split; [exact Href |]. split; [| split; [exact Ha | exact Hrf]].
    rewrite onRequest_authorization, Ha.
    destruct (present_str (str (access_token data))) as [-> | ->]; reflexivity.
Qed.

Lemma getItem_redirect target key w : getItem key (redirect target w) = getItem key w.
Proof. reflexivity. Qed.


(** X19. How [api] ends.  A success, a failure other than 401 and a failure
    of a request marked [_retry] touch neither the storage nor the address.
    A 401 with no refresh token stored sends the window to "/login" and
    keeps the storage; a 401 whose refresh fails removes both tokens, and
    nothing else, from the storage and sends the window to "/login".  In
    each of these cases the caller gets the first answer. *)
Theorem api_failure_handling (b : Backend) (w : World) (config : Request) :
  let first := respond b (length (sent w)) (onRequest w config) in
  let w' := fst (api b w config) in
  let r := snd (api b w config) in
  (forall data, first = Success data ->
     r = Success data /\ storage w' = storage w /\ href w' = href w /\
     refreshCalls w' = refreshCalls w) /\
  (forall status, first = Failure status ->
     is401 status = false \/ _retry config = true ->
     r = Failure status /\ storage w' = storage w /\ href w' = href w /\
     refreshCalls w' = refreshCalls w) /\
  (forall status, first = Failure status ->
     is401 status = true -> _retry config = false ->
     present (getItem "refresh_token" w) = None ->
     r = Failure status /\ href w' = Some "/login"%string /\ storage w' = storage w /\
     refreshCalls w' = refreshCalls w) /\
  (forall status rt, first = Failure status ->
     is401 status = true -> _retry config = false ->
     present (getItem "refresh_token" w) = Some rt ->
     refreshEndpoint b (length (refreshCalls w)) rt = None ->
     r = Failure status /\ href w' = Some "/login"%string /\
     getItem "access_token" w' = None /\ getItem "refresh_token" w' = None /\
     refreshCalls w' = refreshCalls w ++ [rt] /\
     (forall k, k <> "access_token"%string -> k <> "refresh_token"%string ->
        getItem k w' = getItem k w)).
Proof.
  intros first w' r. unfold w', r, first. rewrite api_unfold. cbv zeta.
  split; [| split; [| split]].
  - intros data ->. repeat split.
  - intros status -> [H | H]; rewrite H, ?andb_false_r; repeat split.
  - intros status -> H4 Hr Hp. rewrite H4, Hr, Hp. repeat split.
  - intros status rt -> H4 Hr Hp Hf. rewrite H4, Hr, Hp, Hf. cbn [negb andb fst snd].
    split; [reflexivity |]. split; [reflexivity |].
    split; [| split; [| split]].
    + rewrite getItem_redirect, getItem_removeItem_ne by discriminate.
      apply getItem_removeItem_eq.
    + rewrite getItem_redirect. apply getItem_removeItem_eq.
    + reflexivity.
    + intros k Ha Hrf. rewrite getItem_redirect, !getItem_removeItem_ne by congruence.
      reflexivity.
Qed.

(** ** The auth context *)

(** X20. [logout] removes both tokens from the storage and nothing else,
    clears the user and sends nothing to the server; afterwards the context
    is neither authenticated nor admin.  An admin is always authenticated. *)
Theorem logout_signs_out (w : World) (st : AuthState) :
  let w' := fst (logout w st) in
  let st' := snd (logout w st) in
  isAuthenticated st' = false /\ isAdmin st' = false /\ loading st' = loading st /\
  getItem "access_token" w' = None /\ getItem "refresh_token" w' = None /\
  (forall k, k <> "access_token"%string -> k <> "refresh_token"%string ->
     getItem k w' = getItem k w) /\
  sent w' = sent w /\ refreshCalls w' = refreshCalls w /\ href w' = href w /\
  (isAdmin st = true -> isAuthenticated st = true).
Proof.
  cbv zeta. unfold logout. cbn [fst snd].
  split; [reflexivity |]. split; [reflexivity |]. split; [reflexivity |].
  split; [rewrite getItem_removeItem_ne by discriminate; apply getItem_removeItem_eq |].
  split; [apply getItem_removeItem_eq |].
  split; [intros k Ha Hr; now rewrite !getItem_removeItem_ne by congruence |].
  split; [reflexivity |]. split; [reflexivity |]. split; [reflexivity |].
  unfold isAdmin, isAuthenticated. destruct (user st); [reflexivity | discriminate].
Qed.

(** X21. The effect at mount always ends with [loading] false.  With no
    access token stored it sends nothing and changes nothing else.  With a
    token it asks for the profile with that token as bearer; a success sets
    the user, and any failure leaves the user as it was and removes both
    tokens from the storage. *)
Theorem mount_restores_or_clears (b : Backend) (w : World) (st : AuthState) :
  let w' := fst (mount b w st) in
  let st' := snd (mount b w st) in
  loading st' = false /\
  (present (getItem "access_token" w) = None -> w' = w /\ user st' = user st) /\
  (forall token, present (getItem "access_token" w) = Some token ->
     (exists extra, sent w' = sent w ++ onRequest w (get "/auth/me") :: extra) /\
     authorization (onRequest w (get "/auth/me")) = Some ("Bearer " ++ token)%string /\
     ((exists data, snd (api b w (get "/auth/me")) = Success data /\
                    user st' = Some data /\ w' = fst (api b w (get "/auth/me"))) \/
      (exists status, snd (api b w (get "/auth/me")) = Failure status /\
                      user st' = user st /\
                      getItem "access_token" w' = None /\
                      getItem "refresh_token" w' = None))).
Proof.
  cbv zeta. unfold mount.
  destruct (present (getItem "access_token" w)) as [token |] eqn:Hp.
  - destruct (api_sent b w (get "/auth/me")) as (extra & Hs & _).
    destruct (api b w (get "/auth/me")) as [w1 reply] eqn:Hapi. cbn [fst snd] in *.
    split; [now destruct reply |]. split; [discriminate |].
    intros token' [= <-]. split; [| split].
    + exists extra. destruct reply; cbn [fst]; exact Hs.
    + now rewrite onRequest_authorization, Hp.
    + destruct reply as [data | status]; [left | right]; cbn [fst snd].
      * exists data. repeat split.
      * exists status. split; [reflexivity |]. split; [reflexivity |].
        split; [rewrite getItem_removeItem_ne by discriminate; apply getItem_removeItem_eq |].
        apply getItem_removeItem_eq.
  - cbn [fst snd]. split; [reflexivity |]. split; [intros _; split; reflexivity |].
    intros token' Hn. discriminate.
Qed.

Lemma login_cases b w st e p :
  let '(w', st', out) := login b w st e p in
  (exists rest, sent w' = sent w ++ onRequest w (post "/auth/login" [e; p]) :: rest) /\
  ((out = Rejected /\ st' = st) \/
   (exists data, out = Resolved data /\ st' = setUser (Some data) st)).
Proof.
  unfold login.
  destruct (api_sent b w (post "/auth/login" [e; p])) as (extra & Hs & _).
  destruct (api b w (post "/auth/login" [e; p])) as [w1 [data | status]];
    cbn [fst] in Hs;
    [| split; [now exists extra | now left]].
  match goal with |- context [api b ?w2 ?c] =>
    destruct (api_sent b w2 c) as (extra' & Hs' & _);
    destruct (api b w2 c) as [w3 [userData | status]]
  end; cbn [fst setItem sent] in Hs'; rewrite Hs in Hs'.
  - split; [| right; now exists userData].
    eexists. rewrite Hs'. rewrite <- app_assoc. reflexivity.
  - split; [| now left].
    eexists. rewrite Hs'. rewrite <- app_assoc. reflexivity.
Qed.

(** X22. When the server accepts the credentials, [login] stores both
    tokens of the answer before it asks for the profile, as the strings
    JavaScript makes of them: a missing [access_token] is stored and sent
    as "undefined", and an empty one gives a request with no bearer.  If the
    profile arrives the user is set and the promise resolves with it; if it
    fails with a status other than 401 the promise rejects and the user is
    unchanged, but the new tokens stay in the storage. *)
Theorem login_stores_tokens_before_the_profile
    (b : Backend) (w : World) (st : AuthState) (e p : string) (data : Payload) :
  respond b (length (sent w)) (onRequest w (post "/auth/login" [e; p])) = Success data ->
  let w' := fst (fst (login b w st e p)) in
  let st' := snd (fst (login b w st e p)) in
  let out := snd (login b w st e p) in
  let w2 := setItem "refresh_token" (refresh_token data)
              (setItem "access_token" (access_token data)
                 (fst (dispatch b w (post "/auth/login" [e; p])))) in
  let profile := onRequest w2 (get "/auth/me") in
  nth_error (sent w') (S (length (sent w))) = Some profile /\
  authorization profile =
    (if String.eqb (str (access_token data)) "" then None
     else Some ("Bearer " ++ str (access_token data))%string) /\
  (forall userData, respond b (S (length (sent w))) profile = Success userData ->
     out = Resolved userData /\ user st' = Some userData /\ loading st' = loading st /\
     getItem "access_token" w' = Some (str (access_token data)) /\
     getItem "refresh_token" w' = Some (str (refresh_token data))) /\
  (forall status, respond b (S (length (sent w))) profile = Failure status ->
     is401 status = false ->
     out = Rejected /\ st' = st /\
     getItem "access_token" w' = Some (str (access_token data)) /\
     getItem "refresh_token" w' = Some (str (refresh_token data))).
Proof.
  intros Hfirst. cbv zeta.
  set (w2 := setItem "refresh_token" (refresh_token data)
               (setItem "access_token" (access_token data)
                  (fst (dispatch b w (post "/auth/login" [e; p]))))).
  assert (Hlen : length (sent w2) = S (length (sent w))).
  { unfold w2. cbn [setItem sent dispatch fst]. rewrite length_app. cbn. lia. }
  assert (Ha : getItem "access_token" w2 = Some (str (access_token data))).
  { unfold w2. rewrite getItem_setItem_ne by discriminate. apply getItem_setItem_eq. }
  assert (Hr : getItem "refresh_token" w2 = Some (str (refresh_token data))).
  { unfold w2. apply getItem_setItem_eq. }
  assert (Hlogin : login b w st e p =
                   let '(w3, userReply) := api b w2 (get "/auth/me") in
                   match userReply with
                   | Failure _ => (w3, st, Rejected)
                   | Success userData => (w3, setUser (Some userData) st, Resolved userData)
                   end).
  { unfold login. rewrite (api_unfold b w). cbv zeta. rewrite Hfirst. reflexivity. }
  rewrite Hlogin.
  destruct (api_sent b w2 (get "/auth/me")) as (extra & Hs & _).
  assert (Hnth : nth_error (sent (fst (api b w2 (get "/auth/me")))) (S (length (sent w)))
                 = Some (onRequest w2 (get "/auth/me"))).
  { rewrite Hs, <- Hlen. rewrite nth_error_app2 by lia. now rewrite Nat.sub_diag. }
  split; [| split; [| split]].
  - destruct (api b w2 (get "/auth/me")) as [w3 [userData | status]]; exact Hnth.
  - rewrite onRequest_authorization, Ha. unfold present.
    now destruct (String.eqb (str (access_token data)) "").
  - intros userData Hu. rewrite api_unfold. cbv zeta. rewrite Hlen, Hu. cbn [fst snd].
    repeat split; assumption.
  - intros status Hf H4. rewrite api_unfold. cbv zeta. rewrite Hlen, Hf, H4.
    cbn [andb fst snd]. repeat split; assumption.
Qed.

Lemma login_stores_tokens_before_the_profile_witness :
  respond forgetful (length (sent blank))
    (onRequest blank (post "/auth/login" ["a"; "b"]%string))
  = Success {| access_token := None; refresh_token := Some "r1"%string;
               role := None; username := None; email := None |} /\
  authorization (onRequest
     (setItem "refresh_token" (Some "r1"%string)
        (setItem "access_token" None
           (fst (dispatch forgetful blank (post "/auth/login" ["a"; "b"]%string)))))
     (get "/auth/me")) = Some "Bearer undefined"%string /\
  snd (login forgetful blank start "a" "b") = Rejected /\
  getItem "access_token" (fst (fst (login forgetful blank start "a" "b")))
    = Some "undefined"%string.
Proof.
  assert (Hfirst : respond forgetful (length (sent blank))
                     (onRequest blank (post "/auth/login" ["a"; "b"]%string))
                   = Success {| access_token := None; refresh_token := Some "r1"%string;
                                role := None; username := None; email := None |})
    by reflexivity.
  split; [exact Hfirst |].
  destruct (login_stores_tokens_before_the_profile forgetful blank start "a" "b" _ Hfirst)
    as (_ & Hauth & _ & Hfail).
  destruct (Hfail (Some 500%nat) eq_refl eq_refl) as (Hout & _ & Ha & _).
  split; [exact Hauth |]. split; [exact Hout | exact Ha].
Defined.

(** X23. [register] first submits the registration.  If that fails the
    promise rejects, the user is unchanged and no login request is ever
    sent; if it succeeds the login request follows.  Either the promise
    rejects and the state is unchanged, or it resolves with the profile that
    has become the user. *)
Theorem register_logs_in_only_after_success
    (b : Backend) (w : World) (st : AuthState) (e u p : string) :
  let w' := fst (fst (register b w st e u p)) in
  let st' := snd (fst (register b w st e u p)) in
  let out := snd (register b w st e u p) in
  let registration := post "/auth/register" [e; u; p] in
  (exists rest, sent w' = sent w ++ onRequest w registration :: rest) /\
  ((out = Rejected /\ st' = st) \/
   (exists data, out = Resolved data /\ st' = setUser (Some data) st)) /\
  (forall status, snd (api b w registration) = Failure status ->
     out = Rejected /\ st' = st /\
     exists extra, sent w' = sent w ++ extra /\
                   Forall (fun request => url request = "/auth/register"%string) extra) /\
  (forall data, snd (api b w registration) = Success data ->
     exists w1 rest,
       w1 = fst (api b w registration) /\
       sent w' = sent w1 ++ onRequest w1 (post "/auth/login" [e; p]) :: rest).
Proof.
  cbv zeta. unfold register.
  destruct (api_sent b w (post "/auth/register" [e; u; p])) as (extra & Hs & Hurl).
  destruct (api b w (post "/auth/register" [e; u; p])) as [w1 [data | status]];
    cbn [fst snd] in *.
  - pose proof (login_cases b w1 st e p) as Hl.
    destruct (login b w1 st e p) as [[w' st'] out]. cbn [fst snd].
    destruct Hl as ((rest & Hrest) & Hout).
    split; [| split; [exact Hout | split; [discriminate |]]].
    + eexists. rewrite Hrest, Hs, <- app_assoc. reflexivity.
    + intros data' _. exists w1, rest. split; [reflexivity | exact Hrest].
  - split; [now exists extra |]. split; [now left |]. split; [| discriminate].
    intros status' _. split; [reflexivity |]. split; [reflexivity |].
    eexists. split; [exact Hs |]. constructor; [| exact Hurl].
    now destruct (onRequest_fields w (post "/auth/register" [e; u; p])) as (_ & -> & _).
Qed.
